(** * HttpClient: a shallow embedding of [src/HttpClient.ts]

    The client serialises a bag of request parameters, performs one GET or
    POST through the [got] library and inspects the [warnings] / [errors]
    envelope of the MediaWiki answer.  The embedding follows the TypeScript
    text function by function; what the JavaScript host provides (number and
    date printing, [chalk], the file system, [JSON.parse], the network) is
    collected in the class [Host], so that every statement below holds for
    every host. *)

From Stdlib Require Import String Ascii List Bool Arith ZArith.
From Stdlib Require Import DecimalString.
Import ListNotations.

Local Open Scope list_scope.
Local Open Scope string_scope.

Set Implicit Arguments.

(* ================================================================= *)
(** ** Completions: a call returns a value or throws *)

Module Completion.

(** The exceptions the code can meet.  [Error] is [new Error(message)];
    [Failure] stands for whatever the file system or the HTTP layer throws. *)
Inductive Exn : Type :=
| Error (message : string)
| RangeError
| TypeError
| SyntaxError
| Failure (what : string).

Inductive Result (A : Type) : Type :=
| Ok (a : A)
| Throw (e : Exn).

Arguments Ok {A} a.
Arguments Throw {A} e.

Definition bind {A B} (c : Result A) (k : A -> Result B) : Result B :=
  match c with
  | Ok a => k a
  | Throw e => Throw e
  end.

(** [xs.map(f)] for an [f] that may throw: elements are visited from the
    left, the first exception ends the traversal. *)
Fixpoint mapM {A B} (f : A -> Result B) (xs : list A) : Result (list B) :=
  match xs with
  | [] => Ok []
  | x :: xs' =>
      bind (f x) (fun y => bind (mapM f xs') (fun ys => Ok (y :: ys)))
  end.

(** A [for] loop over [xs] threading the accumulator [acc]. *)
Fixpoint foldM {A B} (f : A -> B -> Result A) (acc : A) (xs : list B)
  : Result A :=
  match xs with
  | [] => Ok acc
  | x :: xs' => bind (f acc x) (fun acc' => foldM f acc' xs')
  end.

End Completion.

Import Completion.

Declare Scope result_scope.
Delimit Scope result_scope with result.
Notation "x <- c ;; k" := (Completion.bind c (fun x => k))
  (at level 61, c at next level, right associativity) : result_scope.

(* ================================================================= *)
(** ** JavaScript strings *)

(** A string is the sequence of its 8-bit characters (the bytes of its
    UTF-8 text); the three characters the code looks for or inserts, the
    pipe, the unit separator and the line feed, are one character each. *)
Module JsString.

(** The unit separator, ['\x1f']. *)
Definition US : string := String (ascii_of_nat 31) EmptyString.

(** The line feed, ['\n']. *)
Definition LF : string := String (ascii_of_nat 10) EmptyString.

(** [s.includes(sub)] *)
Fixpoint includes (s sub : string) : bool :=
  if String.prefix sub s then true
  else match s with
       | EmptyString => false
       | String _ s' => includes s' sub
       end.

(** [strings.join(sep)] on an array of strings. *)
Definition join (sep : string) (strings : list string) : string :=
  String.concat sep strings.

(** [strings.some(p)] *)
Definition some {A} (p : A -> bool) (xs : list A) : bool := existsb p xs.

(** [s.replace(pat, by)] for a string pattern and a replacement without
    [$]: the first occurrence only. *)
Fixpoint replace (s pat by_ : string) : string :=
  if String.prefix pat s
  then by_ ++ substring (String.length pat)
                (String.length s - String.length pat) s
  else match s with
       | EmptyString => EmptyString
       | String c s' => String c (replace s' pat by_)
       end.

(** The characters of a string, to state facts about [includes]. *)
Definition chars (s : string) : list ascii := list_ascii_of_string s.

End JsString.

Import JsString.

(* ================================================================= *)
(** ** Parsed JSON *)

(** The values [JSON.parse] builds, over the host's numbers [N]. *)
#[warnings="-register-all"]
Inductive Json (N : Type) : Type :=
| JNull
| JBool (b : bool)
| JNumber (n : N)
| JString (s : string)
| JArray (elements : list (Json N))
| JObject (properties : list (string * Json N)).

Arguments JNull {N}.
Arguments JBool {N} b.
Arguments JNumber {N} n.
Arguments JString {N} s.
Arguments JArray {N} elements.
Arguments JObject {N} properties.

(* ================================================================= *)
(** ** The host *)

(** What the JavaScript runtime and the imported packages contribute.
    - [Number], [Date]: the values of those two types, with the conversions
      the code applies to them; [Date_toISOString] throws [RangeError] on an
      invalid date;
    - [chalk_yellow]: the styling [chalk.yellow] puts around a line;
    - [getRelativePath] (from [./utils.js], which is not part of the sources)
      and [import_meta_url];
    - [fs_existsSync], [fs_readFileSync]: the file system, the latter already
      decoded by [toString()]; [JSON_parse] throws [SyntaxError] on a text
      that is not JSON;
    - [World]: everything behind the network, cookie jar contents included. *)
Class Host : Type := {
  Number : Type;
  Date : Type;
  Number_toString : Number -> string;
  Date_toString : Date -> string;
  Date_toISOString : Date -> Result string;
  chalk_yellow : string -> string;
  import_meta_url : string;
  getRelativePath : string -> string -> string;
  fs_existsSync : string -> bool;
  fs_readFileSync : string -> Result string;
  JSON_parse : string -> Result (Json Number);
  World : Type
}.

(* ================================================================= *)
(** ** Request parameters *)

Section Params.
Context {host : Host}.

(** [type Primitive = string | number | boolean | Date | null | undefined] *)
Inductive Primitive : Type :=
| PString (s : string)
| PNumber (n : Number)
| PBoolean (b : bool)
| PDate (d : Date)
| PNull
| PUndefined.

(** [Primitive | Primitive[]] *)
Inductive ParamValue : Type :=
| Single (value : Primitive)
| Multi (values : list Primitive).

(** A parameter object, as the list of its properties in the order
    [for ... in] enumerates them.  An object has every name once: the
    statements about the value of a key assume the names distinct. *)
Definition Params : Type := list (string * ParamValue).

(** The global [String(value)]. *)
Definition js_String (value : Primitive) : string :=
  match value with
  | PString s => s
  | PNumber n => Number_toString n
  | PBoolean true => "true"
  | PBoolean false => "false"
  | PDate d => Date_toString d
  | PNull => "null"
  | PUndefined => "undefined"
  end.

(** [toValues], lines 56-65. *)
Definition toValues (values : ParamValue) : string :=
  match values with
  | Multi values =>
      let strings := map js_String values in
      if some (fun value => includes value "|") strings
      then US ++ join US strings
      else join "|" strings
  | Single values =>
      let value := js_String values in
      if includes value "|" then US ++ value else value
  end.

End Params.

(* ================================================================= *)
(** ** URLSearchParams and plain objects *)

Module URLSearchParams.

(** The list of name-value pairs of a [URLSearchParams] object. *)
Definition t : Type := list (string * string).

Definition empty : t := [].

Definition without (name : string) (search : t) : t :=
  filter (fun p => negb (String.eqb (fst p) name)) search.

(** [search.set(name, value)]: the first pair called [name] takes the
    value and the later ones go; without such a pair, one is appended. *)
Fixpoint set (name value : string) (search : t) : t :=
  match search with
  | [] => [(name, value)]
  | (n, v) :: rest =>
      if String.eqb n name
      then (name, value) :: without name rest
      else (n, v) :: set name value rest
  end.

(** [search.getAll(name)] *)
Definition getAll (name : string) (search : t) : list string :=
  map snd (filter (fun p => String.eqb (fst p) name) search).

(** [search.get(name)], with [None] for [null]. *)
Definition get (name : string) (search : t) : option string :=
  hd_error (getAll name search).

(** [search.has(name)] *)
Definition has (name : string) (search : t) : bool :=
  existsb (fun p => String.eqb (fst p) name) search.

(** [search.entries()] *)
Definition entries (search : t) : list (string * string) := search.

Definition keys (search : t) : list string := map fst search.

(** The application/x-www-form-urlencoded serialisation, which is what
    goes on the wire: alphanumerics and [*-._] stay, a space becomes [+],
    every other byte is percent-encoded. *)
Definition hex_digit (n : nat) : ascii :=
  (if n <? 10 then ascii_of_nat (48 + n) else ascii_of_nat (55 + n))%nat.

Definition unreserved (c : ascii) : bool :=
  let n := nat_of_ascii c in
  (((48 <=? n) && (n <=? 57)) || ((65 <=? n) && (n <=? 90))
   || ((97 <=? n) && (n <=? 122))
   || (n =? 42) || (n =? 45) || (n =? 46) || (n =? 95))%nat.

Fixpoint encode (s : string) : string :=
  match s with
  | EmptyString => EmptyString
  | String c s' =>
      let n := nat_of_ascii c in
      if unreserved c then String c (encode s')
      else if (n =? 32)%nat then String "+"%char (encode s')
      else String "%"%char
             (String (hex_digit (n / 16)%nat)
                (String (hex_digit (n mod 16)%nat) (encode s')))
  end.

Definition toString (search : t) : string :=
  join "&" (map (fun p => encode (fst p) ++ "=" ++ encode (snd p)) search).

End URLSearchParams.

Module JsObject.

(** A plain object as the list of its own properties in enumeration
    order.  [obj[key] = value] keeps the place of a property that exists
    and appends a new one (a new name that is an array index would go
    before the names that are not; the names added here, [action] and the
    names of a list already in enumeration order, keep their place). *)
Fixpoint set {V} (key : string) (value : V) (obj : list (string * V))
  : list (string * V) :=
  match obj with
  | [] => [(key, value)]
  | (k, v) :: rest =>
      if String.eqb k key then (key, value) :: rest
      else (k, v) :: set key value rest
  end.

Fixpoint get {V} (key : string) (obj : list (string * V)) : option V :=
  match obj with
  | [] => None
  | (k, v) :: rest => if String.eqb k key then Some v else get key rest
  end.

(** [Object.fromEntries(entries)], and the copy made by [{...obj}]. *)
Definition fromEntries {V} (entries : list (string * V))
  : list (string * V) :=
  fold_left (fun obj kv => set (fst kv) (snd kv) obj) entries [].

Definition keys {V} (obj : list (string * V)) : list string := map fst obj.

End JsObject.

(* ================================================================= *)
(** ** createSearchParams *)

Section CreateSearchParams.
Context {host : Host}.
Local Open Scope result_scope.

(** The inner [convert], lines 69-73. *)
Definition convert (value : Primitive) : Result string :=
  match value with
  | PBoolean _ => Ok ""
  | PDate d => Date_toISOString d
  | _ => Ok (js_String value)
  end.

(** The test of line 76: [value == null], or the boolean [false]. *)
Definition skipped (value : ParamValue) : bool :=
  match value with
  | Single PNull | Single PUndefined | Single (PBoolean false) => true
  | _ => false
  end.

(** Line 77 followed by the call of [toValues] in line 78: the string a
    value that is not skipped is stored under. *)
Definition serialized (value : ParamValue) : Result string :=
  match value with
  | Multi values =>
      strings <- mapM convert values ;;
      Ok (toValues (Multi (map PString strings)))
  | Single value =>
      s <- convert value ;;
      Ok (toValues (Single (PString s)))
  end.

(** One turn of the loop, lines 75-78. *)
Definition visit (search : URLSearchParams.t) (entry : string * ParamValue)
  : Result URLSearchParams.t :=
  let (key, value) := entry in
  if skipped value then Ok search
  else s <- serialized value ;; Ok (URLSearchParams.set key s search).

(** [createSearchParams], lines 67-84. *)
Definition createSearchParams (params : Params) : Result URLSearchParams.t :=
  search <- foldM visit URLSearchParams.empty params ;;
  let search := URLSearchParams.set "format" "json" search in
  let search := URLSearchParams.set "formatversion" "2" search in
  let search := URLSearchParams.set "errorformat" "plaintext" search in
  Ok search.

End CreateSearchParams.

(* ================================================================= *)
(** ** The response envelope *)

(** [interface MediaWikiError] *)
Record MediaWikiError : Type := {
  code : string;
  text : string;
  module : string
}.

(** What the server puts under [errors]: the interface promises an array,
    [checkErrors] also accepts one bare object. *)
Inductive OneOrMany (A : Type) : Type :=
| One (a : A)
| Many (items : list A).

Arguments One {A} a.
Arguments Many {A} items.

(** [interface MediaWikiResponseBody], as the bound [R extends
    MediaWikiResponseBody] of [get] and [post]: any body type that has the
    three optional fields.  [None] is a field that is missing or [null]. *)
Class MediaWikiResponseBody (R : Type) : Type := {
  warnings : R -> option (list MediaWikiError);
  errors : R -> option (OneOrMany MediaWikiError);
  docref : R -> option string
}.

(** [interface QueryResponseBody<T>] *)
Record QueryResponseBody (T : Type) : Type := {
  query_warnings : option (list MediaWikiError);
  query_errors : option (OneOrMany MediaWikiError);
  query_docref : option string;
  batchcomplete : bool + string;
  query : T
}.

#[export] Instance QueryResponseBody_body (T : Type)
  : MediaWikiResponseBody (QueryResponseBody T) := {
  warnings := @query_warnings T;
  errors := @query_errors T;
  docref := @query_docref T
}.

(** The template literal shared by [checkWarnings] and [checkErrors]. *)
Definition format_entry (e : MediaWikiError) : string :=
  "[" ++ module e ++ "] " ++ code e ++ ": " ++ text e.

(** [Array.isArray(errors) ? errors : [errors]] *)
Definition as_array {A} (errors : OneOrMany A) : list A :=
  match errors with
  | Many items => items
  | One a => [a]
  end.

(* ================================================================= *)
(** ** Requests, and the effects of a call *)

Inductive Method : Type := GET | POST.

(** One call of [client.get] or [client.post]: the URL and the option that
    carries the parameters. *)
Record Request : Type := {
  method : Method;
  url : string;
  searchParams : option URLSearchParams.t;
  form : option (list (string * string))
}.

(** [new CookieJar()]: a jar starts empty; what the transport stores in it
    afterwards belongs to the [World]. *)
Inductive CookieJar : Type := new_CookieJar.

Record GotOptions : Type := {
  cookieJar : option CookieJar;
  headers : list (string * string)
}.

Section Effects.
Context {host : Host}.

(** What a call can change: the lines written with [console.warn], the
    requests handed to [got], and the world behind the network. *)
Record State : Type := {
  console : list string;
  requests : list Request;
  world : World
}.

(** An asynchronous method: it ends with a value or a rejection, and the
    state it leaves holds in both cases. *)
Definition M (A : Type) : Type := State -> Result A * State.

Definition ret {A} (a : A) : M A := fun st => (Ok a, st).

Definition mbind {A B} (c : M A) (k : A -> M B) : M B :=
  fun st =>
    match c st with
    | (Ok a, st') => k a st'
    | (Throw e, st') => (Throw e, st')
    end.

(** A synchronous computation used inside a method. *)
Definition lift {A} (c : Result A) : M A := fun st => (c, st).

Definition console_warn (line : string) : M unit :=
  fun st =>
    (Ok tt, {| console := (console st ++ [line])%list;
               requests := requests st;
               world := world st |}).

(** [for (const x of xs) body(x)] *)
Fixpoint forOf {A} (xs : list A) (body : A -> M unit) : M unit :=
  match xs with
  | [] => ret tt
  | x :: xs' => mbind (body x) (fun _ => forOf xs' body)
  end.

(** A [got] instance whose answers are read as [R]: its options, and the
    transport that performs a request and parses the JSON body.  The
    transport may fail (network, status, parsing). *)
Record Got (R : Type) : Type := {
  options : GotOptions;
  transport : GotOptions -> Request -> World -> Result R * World
}.

(** [got.extend(options)]: the given options replace those of the parent
    where both set them. *)
Definition merge_headers (base extra : list (string * string))
  : list (string * string) :=
  fold_left (fun obj kv => JsObject.set (fst kv) (snd kv) obj) extra base.

Definition got_extend {R} (got : Got R) (o : GotOptions) : Got R :=
  {| options :=
       {| cookieJar := match cookieJar o with
                       | Some jar => Some jar
                       | None => cookieJar (options got)
                       end;
          headers := merge_headers (headers (options got)) (headers o) |};
     transport := transport got |}.

(** [await client.get(url, opts).json<R>()] and its [post] twin. *)
Definition got_json {R} (client : Got R) (request : Request) : M R :=
  fun st =>
    let (answer, w) := transport client (options client) request (world st) in
    (answer, {| console := console st;
                requests := (requests st ++ [request])%list;
                world := w |}).

End Effects.

Declare Scope method_scope.
Delimit Scope method_scope with method.
Notation "x <- c ;; k" := (mbind c (fun x => k))
  (at level 61, c at next level, right associativity) : method_scope.
Notation "c ;; k" := (mbind c (fun _ => k))
  (at level 61, right associativity) : method_scope.

(* ================================================================= *)
(** ** class HttpClient *)

Module HttpClient.
Section Methods.
Context {host : Host}.

Record t (R : Type) : Type := {
  endpoint : string;
  client : Got R
}.

(** The template literal of line 51 applied to a parsed value:
    [ToString], with [None] for [undefined]. *)
Fixpoint json_toString (j : Json Number) : string :=
  match j with
  | JNull => "null"
  | JBool true => "true"
  | JBool false => "false"
  | JNumber n => Number_toString n
  | JString s => s
  | JArray elements =>
      join "," (map (fun e => match e with
                              | JNull => ""
                              | _ => json_toString e
                              end) elements)
  | JObject _ => "[object Object]"
  end.

Definition template (v : option (Json Number)) : string :=
  match v with
  | None => "undefined"
  | Some j => json_toString j
  end.

(** [v.name] for a name that is neither an index nor [length]: a
    [TypeError] on [null] and [undefined], [undefined] on the values
    that carry no such property. *)
Definition property (v : option (Json Number)) (name : string)
  : Result (option (Json Number)) :=
  match v with
  | None | Some JNull => Throw TypeError
  | Some (JObject properties) => Ok (JsObject.get name properties)
  | Some _ => Ok None
  end.

(** [v.replace(pat, by)]: only a string has the method. *)
Definition call_replace (v : option (Json Number)) (pat by_ : string)
  : Result string :=
  match v with
  | Some (JString s) => Ok (replace s pat by_)
  | _ => Throw TypeError
  end.

(** [getUserAgent], lines 46-54. *)
Definition getUserAgent : Result string :=
  let userAgent := "HuijiMWClient/Unknown" in
  let path := getRelativePath "../package.json" import_meta_url in
  if fs_existsSync path then
    (content <- fs_readFileSync path ;;
     packageJson <- JSON_parse content ;;
     version <- property (Some packageJson) "version" ;;
     dependencies <- property (Some packageJson) "dependencies" ;;
     got <- property dependencies "got" ;;
     stripped <- call_replace got "^" "" ;;
     Ok ("HuijiMWClient/" ++ template version ++ " Got/" ++ stripped))%result
  else Ok userAgent.

(** The constructor, lines 39-44; [got] is the imported default instance. *)
Definition constructor {R} (got : Got R) (endpoint : string) : Result (t R) :=
  (userAgent <- getUserAgent ;;
   Ok {| endpoint := endpoint;
         client := got_extend got
                     {| cookieJar := Some new_CookieJar;
                        headers := [("User-Agent", userAgent)] |} |})%result.

(** [checkWarnings], lines 86-89. *)
Definition checkWarnings (warnings : option (list MediaWikiError)) : M unit :=
  match warnings with
  | None => ret tt
  | Some warnings =>
      forOf warnings (fun warning =>
        console_warn (chalk_yellow (format_entry warning)))
  end.

(** [checkErrors], lines 91-95. *)
Definition checkErrors (errors : option (OneOrMany MediaWikiError))
  : Result unit :=
  match errors with
  | None => Ok tt
  | Some errors =>
      let message := join LF (map format_entry (as_array errors)) in
      Throw (Error message)
  end.

(** The arguments of [client.get], line 98:
    [(this.endpoint, { searchParams: search })]. *)
Definition get_request {R} (this : t R) (search : URLSearchParams.t)
  : Request :=
  {| method := GET; url := endpoint this;
     searchParams := Some search; form := None |}.

(** The arguments of [client.post], line 105:
    [(this.endpoint, { form: Object.fromEntries(search.entries()) })]. *)
Definition post_request {R} (this : t R) (search : URLSearchParams.t)
  : Request :=
  {| method := POST; url := endpoint this;
     searchParams := None;
     form := Some (JsObject.fromEntries (URLSearchParams.entries search)) |}.

(** [{ ...params, action: 'query' }], line 112. *)
Definition with_action_query (params : Params) : Params :=
  JsObject.set "action" (Single (PString "query"))
    (JsObject.fromEntries params).

Local Open Scope method_scope.

(** [get], lines 97-102. *)
Definition get {R} `{MediaWikiResponseBody R} (this : t R) (params : Params)
  : M R :=
  search <- lift (createSearchParams params) ;;
  result <- got_json (client this) (get_request this search) ;;
  checkWarnings (warnings result) ;;
  lift (checkErrors (errors result)) ;;
  ret result.

(** [post], lines 104-109. *)
Definition post {R} `{MediaWikiResponseBody R} (this : t R) (params : Params)
  : M R :=
  search <- lift (createSearchParams params) ;;
  result <- got_json (client this) (post_request this search) ;;
  checkWarnings (warnings result) ;;
  lift (checkErrors (errors result)) ;;
  ret result.

(** [query], lines 111-114. *)
Definition query {T} (this : t (QueryResponseBody T)) (params : Params)
  : M T :=
  result <- get this (with_action_query params) ;;
  ret (query result).

End Methods.
End HttpClient.

(* ================================================================= *)
(** ** Vocabulary of the statements *)

Section Vocabulary.
Context {host : Host}.

(** The dates a parameter value hands to [convert]. *)
Definition dates_of (values : list Primitive) : list Date :=
  flat_map (fun v => match v with PDate d => [d] | _ => [] end) values.

Definition dates (value : ParamValue) : list Date :=
  match value with
  | Single v => dates_of [v]
  | Multi values => dates_of values
  end.

(** The three names line 80-82 set last. *)
Definition reserved (key : string) : Prop :=
  key = "format" \/ key = "formatversion" \/ key = "errorformat".

(** The properties the loop of [createSearchParams] does not skip. *)
Definition kept (params : Params) : Params :=
  filter (fun entry => negb (skipped (snd entry))) params.

(** The delimiter decision of [toValues] on strings. *)
Definition joined (strings : list string) : string :=
  if some (fun value => includes value "|") strings
  then US ++ join US strings
  else join "|" strings.

(** The lines [checkWarnings] writes for a list of warnings. *)
Definition warning_lines (warnings : list MediaWikiError) : list string :=
  map (fun warning => chalk_yellow (format_entry warning)) warnings.

(** The lines [checkWarnings] writes for the field [warnings]. *)
Definition lines_of (ws : option (list MediaWikiError)) : list string :=
  match ws with
  | None => []
  | Some ws => warning_lines ws
  end.

(** The state after [got] took [request] and the world moved to [w]. *)
Definition sent (request : Request) (w : World) (st : State) : State :=
  {| console := console st;
     requests := (requests st ++ [request])%list;
     world := w |}.

(** The state after [lines] went to [console.warn]. *)
Definition warned (lines : list string) (st : State) : State :=
  {| console := (console st ++ lines)%list;
     requests := requests st;
     world := world st |}.

End Vocabulary.

(* ================================================================= *)
(** ** A concrete host, to run the model *)

Module Sample.

(** Two dates are enough: the epoch and [new Date(NaN)]. *)
Inductive SampleDate : Type := Epoch | InvalidDate.

Definition QUOTE : string := String (ascii_of_nat 34) EmptyString.

(** The text of a small [package.json]. *)
Definition package_json : string :=
  "{" ++ QUOTE ++ "version" ++ QUOTE ++ ":" ++ QUOTE ++ "1.0.0" ++ QUOTE
  ++ "," ++ QUOTE ++ "dependencies" ++ QUOTE ++ ":{" ++ QUOTE ++ "got"
  ++ QUOTE ++ ":" ++ QUOTE ++ "^12.5.3" ++ QUOTE ++ "}}".

(** [JSON.parse] on the texts the sample file systems hold: the text
    above, and texts that are not JSON. *)
Definition parse (content : string) : Result (Json Z) :=
  if String.eqb content package_json
  then Ok (JObject [("version", JString "1.0.0");
                    ("dependencies", JObject [("got", JString "^12.5.3")])])
  else Throw SyntaxError.

(** A host over a file system given as a list of paths with their
    contents.  Numbers are the integers, printed in decimal; [chalk]
    runs without colour support; the world is a count of the requests
    served. *)
Definition sample_host (files : list (string * string)) : Host := {|
  Number := Z;
  Date := SampleDate;
  Number_toString := fun n => NilZero.string_of_int (Z.to_int n);
  Date_toString := fun d =>
    match d with
    | Epoch => "Thu Jan 01 1970 00:00:00 GMT+0000 (Coordinated Universal Time)"
    | InvalidDate => "Invalid Date"
    end;
  Date_toISOString := fun d =>
    match d with
    | Epoch => Ok "1970-01-01T00:00:00.000Z"
    | InvalidDate => Throw RangeError
    end;
  chalk_yellow := fun line => line;
  import_meta_url := "file:///app/dist/HttpClient.js";
  getRelativePath := fun _ _ => "/app/package.json";
  fs_existsSync := fun path =>
    match JsObject.get path files with Some _ => true | None => false end;
  fs_readFileSync := fun path =>
    match JsObject.get path files with
    | Some content => Ok content
    | None => Throw (Failure "ENOENT")
    end;
  JSON_parse := parse;
  World := nat
|}.

(** No [package.json]; one that is not JSON; a well-formed one. *)
Definition bare : Host := sample_host [].
Definition broken : Host := sample_host [("/app/package.json", "not json")].
Definition packaged : Host := sample_host [("/app/package.json", package_json)].

Definition start : @State bare :=
  {| console := []; requests := []; world := (0 : @World bare) |}.

Definition badtoken : MediaWikiError :=
  {| code := "badtoken"; text := "Invalid CSRF token."; module := "edit" |}.

Definition deprecated : MediaWikiError :=
  {| code := "deprecation"; text := "Use rvslots.";
     module := "query+revisions" |}.

Definition unknown : MediaWikiError :=
  {| code := "unrecognizedparams"; text := "Unrecognized parameter: foo.";
     module := "main" |}.

(** The default [got] instance of a server that gives the same answer to
    every request. *)
Definition server (files : list (string * string)) {R} (answer : Result R)
  : @Got (sample_host files) R :=
  {| options := {| cookieJar := None; headers := [] |};
     transport := fun _ _ (w : @World (sample_host files)) =>
                    (answer, S w) |}.

Definition wiki {R} (answer : Result R) : @HttpClient.t bare R :=
  {| HttpClient.endpoint := "https://wiki.example/api.php";
     HttpClient.client := server [] answer |}.

(** A query answer with the given envelope and the payload [7]. *)
Definition answer (w : option (list MediaWikiError))
  (e : option (OneOrMany MediaWikiError)) : QueryResponseBody nat :=
  {| query_warnings := w; query_errors := e; query_docref := None;
     batchcomplete := inl true; query := 7 |}.

(** A [package.json] that has a version and no dependencies, with
    [JSON.parse] on that text, and the host that holds it. *)
Definition versioned_json : string :=
  "{" ++ QUOTE ++ "version" ++ QUOTE ++ ":" ++ QUOTE ++ "1.0.0" ++ QUOTE
  ++ "}".

Definition parse_versioned (content : string) : Result (Json Z) :=
  if String.eqb content versioned_json
  then Ok (JObject [("version", JString "1.0.0")])
  else Throw SyntaxError.

Definition versioned : Host := {|
  Number := Z;
  Date := SampleDate;
  Number_toString := @Number_toString bare;
  Date_toString := @Date_toString bare;
  Date_toISOString := @Date_toISOString bare;
  chalk_yellow := fun line => line;
  import_meta_url := "file:///app/dist/HttpClient.js";
  getRelativePath := fun _ _ => "/app/package.json";
  fs_existsSync := fun path => String.eqb path "/app/package.json";
  fs_readFileSync := fun path =>
    if String.eqb path "/app/package.json" then Ok versioned_json
    else Throw (Failure "ENOENT");
  JSON_parse := parse_versioned;
  World := nat
|}.

(** The object [{ action: 'ignoredOnPurpose', list: 'foo' }]. *)
Definition ignored : @Params bare :=
  [("action", Single (PString "ignoredOnPurpose"));
   ("list", Single (PString "foo"))].

End Sample.

(* ================================================================= *)
(** * Properties *)

Unset Implicit Arguments.

(* ================================================================= *)
(** ** Strings *)

Section StringFacts.

Lemma prefix_pipe (s : string) :
  String.prefix "|" s = true <-> exists s', s = String "|"%char s'.
Proof.
  destruct s as [|c s']; cbn [String.prefix].
  - split; [discriminate | intros [? ?]; discriminate].
  - destruct (ascii_dec "|" c) as [<-|Hne].
    + split; [eauto | now destruct s'].
    + split; [discriminate | intros [? Heq]; congruence].
Qed.

(** [value.includes('|')] holds exactly of the strings that have the
    character. *)
Lemma includes_pipe (s : string) :
  includes s "|" = true <-> In "|"%char (chars s).
Proof.
  induction s as [|c s IH].
  - simpl. split; [discriminate | tauto].
  - cbn [includes].
    destruct (String.prefix "|" (String c s)) eqn:Hp.
    + apply prefix_pipe in Hp as [s' Heq]. injection Heq as -> ->.
      split; [simpl; auto | reflexivity].
    + rewrite IH. simpl. split; [auto |].
      intros [Hc|Hin]; [| exact Hin]. subst c.
      assert (String.prefix "|" (String "|"%char s) = true)
        by (apply prefix_pipe; eauto).
      congruence.
Qed.

Lemma includes_pipe_false (s : string) :
  includes s "|" = false <-> ~ In "|"%char (chars s).
Proof.
  rewrite <- includes_pipe. destruct (includes s "|"); split;
    congruence || tauto || (intros H; exfalso; apply H; reflexivity).
Qed.

(** [strings.some(value => value.includes('|'))] *)
Lemma some_pipe (strings : list string) :
  some (fun value => includes value "|") strings = true
  <-> exists s, In s strings /\ In "|"%char (chars s).
Proof.
  unfold some. rewrite existsb_exists.
  split; intros [s [Hin Hp]]; exists s; split; auto;
    now apply includes_pipe.
Qed.

Lemma some_pipe_false (strings : list string) :
  some (fun value => includes value "|") strings = false
  <-> forall s, In s strings -> ~ In "|"%char (chars s).
Proof.
  unfold some. rewrite <- not_true_iff_false, existsb_exists.
  split.
  - intros Hno s Hin Hp. apply Hno. exists s. split; auto.
    now apply includes_pipe.
  - intros Hall [s [Hin Hp]]. apply (Hall s Hin). now apply includes_pipe.
Qed.

End StringFacts.

(* ================================================================= *)
(** ** URLSearchParams and objects *)

Section SearchFacts.
Import URLSearchParams.

Lemma getAll_without_same (name : string) (search : t) :
  getAll name (without name search) = [].
Proof.
  unfold getAll, without.
  induction search as [|[n v] rest IH]; simpl; auto.
  destruct (String.eqb n name) eqn:E; simpl; auto.
  rewrite E. exact IH.
Qed.

Lemma getAll_without_other (name other : string) (search : t) :
  other <> name ->
  getAll other (without name search) = getAll other search.
Proof.
  intros Hne. unfold getAll, without.
  induction search as [|[n v] rest IH]; simpl; auto.
  destruct (String.eqb_spec n name) as [->|Hn]; simpl.
  - destruct (String.eqb_spec name other) as [->|_]; [congruence | exact IH].
  - destruct (String.eqb n other); simpl; congruence.
Qed.

(** After [set], the name has exactly one value. *)
Lemma getAll_set_same (name value : string) (search : t) :
  getAll name (set name value search) = [value].
Proof.
  induction search as [|[n v] rest IH]; simpl.
  - unfold getAll. simpl. now rewrite String.eqb_refl.
  - destruct (String.eqb n name) eqn:E.
    + unfold getAll. simpl. rewrite String.eqb_refl. simpl.
      f_equal. apply getAll_without_same.
    + unfold getAll in *. simpl. rewrite E. exact IH.
Qed.

(** [set] leaves the other names alone. *)
Lemma getAll_set_other (name other value : string) (search : t) :
  other <> name ->
  getAll other (set name value search) = getAll other search.
Proof.
  intros Hne.
  induction search as [|[n v] rest IH]; simpl.
  - unfold getAll. simpl.
    destruct (String.eqb_spec name other); [congruence | reflexivity].
  - destruct (String.eqb_spec n name) as [->|Hn].
    + unfold getAll. simpl.
      destruct (String.eqb_spec name other); [congruence |].
      now apply getAll_without_other.
    + unfold getAll in *. simpl.
      destruct (String.eqb n other); simpl; congruence.
Qed.

Lemma get_of_getAll (name : string) (search : t) (values : list string) :
  getAll name search = values -> get name search = hd_error values.
Proof. unfold get. now intros ->. Qed.

Lemma has_of_getAll (name : string) (search : t) :
  has name search = false <-> getAll name search = [].
Proof.
  unfold has, getAll.
  induction search as [|[n v] rest IH]; simpl; [tauto |].
  destruct (String.eqb n name); simpl; [| exact IH].
  split; discriminate.
Qed.

Lemma keys_without (name key : string) (search : t) :
  In key (keys (without name search)) -> In key (keys search).
Proof.
  unfold keys, without. rewrite !in_map_iff.
  intros [p [Hk Hin]]. apply filter_In in Hin as [Hin _]. eauto.
Qed.

Lemma NoDup_keys_without (name : string) (search : t) :
  NoDup (keys search) -> NoDup (keys (without name search)).
Proof.
  unfold keys, without.
  induction search as [|[n v] rest IH]; simpl; intros Hnd; auto.
  inversion Hnd as [|? ? Hnin Hrest]; subst.
  destruct (String.eqb n name); simpl; auto.
  constructor; auto.
  intros Hin. apply Hnin. now apply (keys_without name).
Qed.

Lemma keys_set (name value key : string) (search : t) :
  In key (keys (set name value search)) ->
  key = name \/ In key (keys search).
Proof.
  induction search as [|[n v] rest IH]; simpl.
  - intros [<-|[]]. now left.
  - destruct (String.eqb_spec n name) as [->|Hn]; simpl.
    + intros [<-|Hin]; [now left |].
      right. right. now apply (keys_without name).
    + intros [<-|Hin]; [now right; left |].
      destruct (IH Hin); auto.
Qed.

Lemma not_in_keys_without (name : string) (search : t) :
  ~ In name (keys (without name search)).
Proof.
  unfold keys, without. rewrite in_map_iff.
  intros [[n v] [Hk Hin]]. apply filter_In in Hin as [_ Hn].
  simpl in *. subst. now rewrite String.eqb_refl in Hn.
Qed.

(** [set] keeps the names distinct. *)
Lemma NoDup_keys_set (name value : string) (search : t) :
  NoDup (keys search) -> NoDup (keys (set name value search)).
Proof.
  induction search as [|[n v] rest IH]; simpl; intros Hnd.
  - constructor; [tauto | constructor].
  - inversion Hnd as [|? ? Hnin Hrest]; subst.
    destruct (String.eqb_spec n name) as [->|Hn]; simpl.
    + constructor; [apply not_in_keys_without |].
      now apply NoDup_keys_without.
    + constructor; auto.
      intros Hin. apply keys_set in Hin as [->|Hin]; tauto.
Qed.

End SearchFacts.

Section ObjectFacts.
Variable V : Type.
Implicit Types (obj : list (string * V)) (key : string) (value : V).

Lemma object_get_set_same key value obj :
  JsObject.get key (JsObject.set key value obj) = Some value.
Proof.
  induction obj as [|[k v] rest IH]; simpl.
  - now rewrite String.eqb_refl.
  - destruct (String.eqb k key) eqn:E; simpl.
    + now rewrite String.eqb_refl.
    + now rewrite E.
Qed.

Lemma object_keys_set key value obj k :
  In k (JsObject.keys (JsObject.set key value obj)) <->
  k = key \/ In k (JsObject.keys obj).
Proof.
  induction obj as [|[k0 v0] rest IH]; simpl.
  - intuition.
  - destruct (String.eqb_spec k0 key) as [->|Hn]; simpl.
    + intuition.
    + rewrite IH. intuition.
Qed.

Lemma object_NoDup_set key value obj :
  NoDup (JsObject.keys obj) ->
  NoDup (JsObject.keys (JsObject.set key value obj)).
Proof.
  induction obj as [|[k v] rest IH]; simpl; intros Hnd.
  - constructor; [tauto | constructor].
  - inversion Hnd as [|? ? Hnin Hrest]; subst.
    destruct (String.eqb_spec k key) as [->|Hn]; simpl.
    + now constructor.
    + constructor; auto.
      rewrite object_keys_set. intuition.
Qed.

(** Setting a property of an object with distinct names in the order of
    the object changes nothing: [fromEntries] copies such a list. *)
Lemma object_set_fresh key value obj :
  ~ In key (JsObject.keys obj) ->
  JsObject.set key value obj = (obj ++ [(key, value)])%list.
Proof.
  induction obj as [|[k v] rest IH]; simpl; intros Hnin; auto.
  destruct (String.eqb_spec k key) as [->|Hn]; [tauto |].
  f_equal. apply IH. tauto.
Qed.

Lemma object_fold_set_NoDup (entries : list (string * V)) obj :
  NoDup (JsObject.keys obj) ->
  NoDup (JsObject.keys
           (fold_left (fun o kv => JsObject.set (fst kv) (snd kv) o)
              entries obj)).
Proof.
  revert obj. induction entries as [|[k v] rest IH]; simpl; intros obj Hnd.
  - exact Hnd.
  - apply IH. now apply object_NoDup_set.
Qed.

Lemma object_NoDup_fromEntries (entries : list (string * V)) :
  NoDup (JsObject.keys (JsObject.fromEntries entries)).
Proof. apply object_fold_set_NoDup. constructor. Qed.

Lemma object_fold_set_copy (entries : list (string * V)) obj :
  NoDup (JsObject.keys (obj ++ entries)%list) ->
  fold_left (fun o kv => JsObject.set (fst kv) (snd kv) o) entries obj
  = (obj ++ entries)%list.
Proof.
  revert obj. induction entries as [|[k v] rest IH]; simpl; intros obj Hnd.
  - now rewrite app_nil_r.
  - assert (Hfresh : ~ In k (JsObject.keys obj)).
    { unfold JsObject.keys in *. rewrite map_app in Hnd. simpl in Hnd.
      apply NoDup_remove_2 in Hnd. rewrite in_app_iff in Hnd. tauto. }
    rewrite object_set_fresh by exact Hfresh.
    replace (obj ++ (k, v) :: rest)%list
      with ((obj ++ [(k, v)]) ++ rest)%list in *
      by (rewrite <- app_assoc; reflexivity).
    now apply IH.
Qed.

Lemma object_fromEntries_copy (entries : list (string * V)) :
  NoDup (JsObject.keys entries) -> JsObject.fromEntries entries = entries.
Proof. intros Hnd. now apply (object_fold_set_copy entries []). Qed.

End ObjectFacts.

(* ================================================================= *)
(** ** The loop of createSearchParams *)

Section LoopFacts.
Context {host : Host}.
Implicit Types (params : Params) (search : URLSearchParams.t)
  (key : string) (value : ParamValue).

Lemma mapM_length {A B} (f : A -> Result B) xs ys :
  mapM f xs = Ok ys -> length ys = length xs.
Proof.
  revert ys. induction xs as [|x xs IH]; simpl; intros ys H.
  - now injection H as <-.
  - destruct (f x); simpl in H; [| discriminate].
    destruct (mapM f xs); simpl in H; [| discriminate].
    injection H as <-. simpl. f_equal. now apply IH.
Qed.

Lemma mapM_nth {A B} (f : A -> Result B) xs ys i x :
  mapM f xs = Ok ys -> nth_error xs i = Some x ->
  exists y, f x = Ok y /\ nth_error ys i = Some y.
Proof.
  revert ys i. induction xs as [|x0 xs IH]; simpl; intros ys i H Hi.
  - destruct i; discriminate.
  - destruct (f x0) as [y0|] eqn:E0; simpl in H; [| discriminate].
    destruct (mapM f xs) as [ys0|]; simpl in H; [| discriminate].
    injection H as <-. destruct i as [|i]; simpl in *.
    + injection Hi as <-. eauto.
    + now apply IH.
Qed.

Lemma mapM_returns {A B} (f : A -> Result B) xs :
  (forall x, In x xs -> exists y, f x = Ok y) ->
  exists ys, mapM f xs = Ok ys.
Proof.
  induction xs as [|x xs IH]; simpl; intros H; [eauto |].
  destruct (H x (or_introl eq_refl)) as [y ->].
  destruct IH as [ys ->]; [intros; apply H; auto |].
  simpl. eauto.
Qed.

Lemma convert_returns (v : Primitive) :
  (forall d, In d (dates_of [v]) -> exists s, Date_toISOString d = Ok s) ->
  exists s, convert v = Ok s.
Proof.
  destruct v; simpl; intros H; eauto.
Qed.

Lemma in_dates_of (v : Primitive) (values : list Primitive) d :
  In v values -> In d (dates_of [v]) -> In d (dates_of values).
Proof.
  unfold dates_of. rewrite !in_flat_map. intros Hv [v' [[<-|[]] Hd]]. eauto.
Qed.

Lemma serialized_returns value :
  (forall d, In d (dates value) -> exists s, Date_toISOString d = Ok s) ->
  exists s, serialized value = Ok s.
Proof.
  destruct value as [v|values]; simpl; intros H.
  - destruct (convert_returns v H) as [s ->]. simpl. eauto.
  - destruct (mapM_returns convert values) as [ys ->]; [| simpl; eauto].
    intros v Hv. apply convert_returns. intros d Hd. apply H.
    now apply (in_dates_of v).
Qed.

(** The loop ends normally when no date is invalid. *)
Lemma loop_returns params search :
  (forall key value d, In (key, value) params -> In d (dates value) ->
                       exists s, Date_toISOString d = Ok s) ->
  exists search', foldM visit search params = Ok search'.
Proof.
  revert search. induction params as [|[k v] rest IH]; simpl; intros search H.
  - eauto.
  - destruct (skipped v); simpl.
    + apply IH. intros; eapply H; eauto.
    + destruct (serialized_returns v) as [s ->].
      { intros d Hd. eapply H; eauto. }
      simpl. apply IH. intros; eapply H; eauto.
Qed.

(** A name the object does not have keeps the values it had. *)
Lemma loop_untouched params search search' key :
  foldM visit search params = Ok search' ->
  ~ In key (JsObject.keys params) ->
  URLSearchParams.getAll key search' = URLSearchParams.getAll key search.
Proof.
  revert search. induction params as [|[k v] rest IH]; simpl;
    intros search H Hnin.
  - now injection H as <-.
  - destruct (skipped v); simpl in H.
    + apply IH; tauto.
    + destruct (serialized v) as [s|]; simpl in H; [| discriminate].
      rewrite (IH _ H) by tauto.
      apply getAll_set_other. intros ->. tauto.
Qed.

(** What the loop leaves under a name of the object. *)
Lemma loop_value params search search' key value :
  NoDup (JsObject.keys params) ->
  foldM visit search params = Ok search' ->
  JsObject.get key params = Some value ->
  if skipped value
  then URLSearchParams.getAll key search'
       = URLSearchParams.getAll key search
  else exists s, serialized value = Ok s
                 /\ URLSearchParams.getAll key search' = [s].
Proof.
  revert search. induction params as [|[k v] rest IH]; simpl;
    intros search Hnd H Hget; [discriminate |].
  inversion Hnd as [|? ? Hnin Hrest]; subst.
  destruct (String.eqb_spec k key) as [->|Hne].
  - injection Hget as ->.
    destruct (skipped value); simpl in H.
    + now apply (loop_untouched rest).
    + destruct (serialized value) as [s|]; simpl in H; [| discriminate].
      exists s. split; auto.
      rewrite (loop_untouched rest _ _ _ H Hnin).
      apply getAll_set_same.
  - destruct (skipped v); simpl in H.
    + now apply IH.
    + destruct (serialized v) as [s0|]; simpl in H; [| discriminate].
      specialize (IH _ Hrest H Hget).
      destruct (skipped value); [| exact IH].
      rewrite IH. apply getAll_set_other. congruence.
Qed.

Lemma loop_NoDup params search search' :
  NoDup (URLSearchParams.keys search) ->
  foldM visit search params = Ok search' ->
  NoDup (URLSearchParams.keys search').
Proof.
  revert search. induction params as [|[k v] rest IH]; simpl;
    intros search Hnd H.
  - now injection H as <-.
  - destruct (skipped v); simpl in H; [now apply (IH search) |].
    destruct (serialized v) as [s|]; simpl in H; [| discriminate].
    apply (IH _ (NoDup_keys_set k s search Hnd) H).
Qed.

(** [createSearchParams] is its loop followed by the three assignments. *)
Lemma createSearchParams_inv params search :
  createSearchParams params = Ok search ->
  exists found,
    foldM visit URLSearchParams.empty params = Ok found /\
    search = URLSearchParams.set "errorformat" "plaintext"
               (URLSearchParams.set "formatversion" "2"
                  (URLSearchParams.set "format" "json" found)).
Proof.
  unfold createSearchParams.
  destruct (foldM visit URLSearchParams.empty params) as [found|];
    simpl; intros H; [| discriminate].
  injection H as <-. eauto.
Qed.

Lemma createSearchParams_returns params :
  (forall key value d, In (key, value) params -> In d (dates value) ->
                       exists s, Date_toISOString d = Ok s) ->
  exists search, createSearchParams params = Ok search.
Proof.
  intros H. unfold createSearchParams.
  destruct (loop_returns params URLSearchParams.empty H) as [found ->].
  simpl. eauto.
Qed.

Lemma createSearchParams_NoDup params search :
  createSearchParams params = Ok search ->
  NoDup (URLSearchParams.keys search).
Proof.
  intros H. apply createSearchParams_inv in H as [found [Hloop ->]].
  do 3 apply NoDup_keys_set.
  apply (loop_NoDup params URLSearchParams.empty);
    [constructor | exact Hloop].
Qed.

Lemma getAll_plain key search :
  ~ reserved key ->
  URLSearchParams.getAll key
    (URLSearchParams.set "errorformat" "plaintext"
       (URLSearchParams.set "formatversion" "2"
          (URLSearchParams.set "format" "json" search)))
  = URLSearchParams.getAll key search.
Proof.
  unfold reserved. intros Hres.
  rewrite !getAll_set_other by tauto. reflexivity.
Qed.

(** The values of a name that is not reserved, for an object with
    distinct names. *)
Lemma createSearchParams_key params search key :
  NoDup (JsObject.keys params) ->
  createSearchParams params = Ok search ->
  ~ reserved key ->
  match JsObject.get key params with
  | None => URLSearchParams.getAll key search = []
  | Some value =>
      if skipped value then URLSearchParams.getAll key search = []
      else exists s, serialized value = Ok s
                     /\ URLSearchParams.getAll key search = [s]
  end.
Proof.
  intros Hnd H Hres.
  apply createSearchParams_inv in H as [found [Hloop ->]].
  rewrite (getAll_plain _ _ Hres).
  destruct (JsObject.get key params) as [value|] eqn:Hget.
  - pose proof (loop_value _ _ _ _ _ Hnd Hloop Hget) as Hv.
    destruct (skipped value); exact Hv.
  - rewrite (loop_untouched params _ _ _ Hloop); [reflexivity |].
    clear -Hget. induction params as [|[k v] rest IH]; simpl in *; [tauto |].
    destruct (String.eqb_spec k key); [discriminate |].
    intros [?|?]; [congruence | now apply IH].
Qed.

End LoopFacts.

(* ================================================================= *)
(** ** The envelope checks and the three methods *)

Section MethodFacts.
Context {host : Host}.

Lemma warned_nil (st : State) : warned [] st = st.
Proof. destruct st. unfold warned. simpl. now rewrite app_nil_r. Qed.

Lemma warned_app (l1 l2 : list string) (st : State) :
  warned l2 (warned l1 st) = warned (l1 ++ l2)%list st.
Proof. unfold warned. simpl. now rewrite app_assoc. Qed.

Lemma forOf_warn (f : MediaWikiError -> string) (ws : list MediaWikiError)
  (st : State) :
  forOf ws (fun w => console_warn (f w)) st = (Ok tt, warned (map f ws) st).
Proof.
  revert st. induction ws as [|w ws IH]; intros st; simpl.
  - unfold ret. now rewrite warned_nil.
  - unfold mbind. simpl. rewrite IH.
    change {| console := (console st ++ [f w])%list;
              requests := requests st; world := world st |}
      with (warned [f w] st).
    now rewrite warned_app.
Qed.

(** [checkWarnings] writes its lines and returns. *)
Lemma checkWarnings_run (ws : option (list MediaWikiError)) (st : State) :
  HttpClient.checkWarnings ws st = (Ok tt, warned (lines_of ws) st).
Proof.
  destruct ws as [ws|]; simpl.
  - apply forOf_warn.
  - unfold ret. now rewrite warned_nil.
Qed.

(** What follows the [await] in [get] and in [post]. *)
Lemma checks_run {R} `{MediaWikiResponseBody R} (result : R) (st : State) :
  mbind (HttpClient.checkWarnings (warnings result))
    (fun _ => mbind (lift (HttpClient.checkErrors (errors result)))
                (fun _ => ret result)) st
  = (match HttpClient.checkErrors (errors result) with
     | Ok _ => Ok result
     | Throw e => Throw e
     end, warned (lines_of (warnings result)) st).
Proof.
  unfold mbind at 1. rewrite checkWarnings_run.
  unfold mbind, lift, ret.
  destruct (HttpClient.checkErrors (errors result)); reflexivity.
Qed.

Lemma got_json_run {R} (c : Got R) (request : Request) (st : State)
  (answer : Result R) (w : World) :
  transport c (options c) request (world st) = (answer, w) ->
  got_json c request st = (answer, sent request w st).
Proof. unfold got_json. now intros ->. Qed.

(** [get], step by step. *)
Lemma get_run {R} `{MediaWikiResponseBody R} (this : HttpClient.t R) (params : Params)
  (st : State) (search : URLSearchParams.t) (answer : Result R) (w : World) :
  createSearchParams params = Ok search ->
  transport (HttpClient.client this) (options (HttpClient.client this))
    (HttpClient.get_request this search) (world st) = (answer, w) ->
  HttpClient.get this params st =
  match answer with
  | Throw e => (Throw e, sent (HttpClient.get_request this search) w st)
  | Ok result =>
      (match HttpClient.checkErrors (errors result) with
       | Ok _ => Ok result
       | Throw e => Throw e
       end,
       warned (lines_of (warnings result))
         (sent (HttpClient.get_request this search) w st))
  end.
Proof.
  intros Hs Ht. unfold HttpClient.get. unfold mbind at 1. unfold lift at 1.
  rewrite Hs. unfold mbind at 1.
  rewrite (got_json_run _ _ _ _ _ Ht).
  destruct answer as [result|e]; [apply checks_run | reflexivity].
Qed.

(** [post], step by step. *)
Lemma post_run {R} `{MediaWikiResponseBody R} (this : HttpClient.t R) (params : Params)
  (st : State) (search : URLSearchParams.t) (answer : Result R) (w : World) :
  createSearchParams params = Ok search ->
  transport (HttpClient.client this) (options (HttpClient.client this))
    (HttpClient.post_request this search) (world st) = (answer, w) ->
  HttpClient.post this params st =
  match answer with
  | Throw e => (Throw e, sent (HttpClient.post_request this search) w st)
  | Ok result =>
      (match HttpClient.checkErrors (errors result) with
       | Ok _ => Ok result
       | Throw e => Throw e
       end,
       warned (lines_of (warnings result))
         (sent (HttpClient.post_request this search) w st))
  end.
Proof.
  intros Hs Ht. unfold HttpClient.post. unfold mbind at 1. unfold lift at 1.
  rewrite Hs. unfold mbind at 1.
  rewrite (got_json_run _ _ _ _ _ Ht).
  destruct answer as [result|e]; [apply checks_run | reflexivity].
Qed.

(** A method whose parameters cannot be serialised throws before any
    request is made. *)
Lemma get_throws_early {R} `{MediaWikiResponseBody R} (this : HttpClient.t R)
  (params : Params) (st : State) (e : Exn) :
  createSearchParams params = Throw e -> HttpClient.get this params st = (Throw e, st).
Proof.
  intros Hs. unfold HttpClient.get. unfold mbind at 1. unfold lift at 1.
  now rewrite Hs.
Qed.

Lemma post_throws_early {R} `{MediaWikiResponseBody R} (this : HttpClient.t R)
  (params : Params) (st : State) (e : Exn) :
  createSearchParams params = Throw e -> HttpClient.post this params st = (Throw e, st).
Proof.
  intros Hs. unfold HttpClient.post. unfold mbind at 1. unfold lift at 1.
  now rewrite Hs.
Qed.

(** [query] is [get] on the completed object, followed by the field read. *)
Lemma query_run {T} (this : HttpClient.t (QueryResponseBody T)) (params : Params)
  (st : State) :
  HttpClient.query this params st =
  match HttpClient.get this (HttpClient.with_action_query params) st with
  | (Ok result, st') => (Ok (query result), st')
  | (Throw e, st') => (Throw e, st')
  end.
Proof. reflexivity. Qed.

(** The object [query] passes on has distinct names and the forced
    [action]. *)
Lemma with_action_query_NoDup (params : Params) :
  NoDup (JsObject.keys (HttpClient.with_action_query params)).
Proof.
  unfold HttpClient.with_action_query.
  apply object_NoDup_set, object_NoDup_fromEntries.
Qed.

Lemma with_action_query_action (params : Params) :
  JsObject.get "action" (HttpClient.with_action_query params)
  = Some (Single (PString "query")).
Proof. apply object_get_set_same. Qed.

End MethodFacts.

(* ================================================================= *)
(** ** The serialisation of parameters *)

Lemma map_js_String_PString {host : Host} (strings : list string) :
  map js_String (map PString strings) = strings.
Proof.
  induction strings as [|s strings IH]; simpl; congruence.
Qed.

Lemma toValues_strings {host : Host} (strings : list string) :
  toValues (Multi (map PString strings)) = joined strings.
Proof.
  unfold toValues, joined. now rewrite map_js_String_PString.
Qed.

(** C2: whatever the caller puts in the parameter object, the three keys
    [format], [formatversion] and [errorformat] come out of
    [createSearchParams] with exactly the values [json], [2] and
    [plaintext], each of them once.  The function returns for every object
    that holds no invalid date. *)
Theorem reserved_keys_fixed {host : Host} (params : Params) :
  ((forall key value d,
       In (key, value) params -> In d (dates value) ->
       exists s, Date_toISOString d = Ok s) ->
   exists search, createSearchParams params = Ok search)
  /\
  (forall search,
      createSearchParams params = Ok search ->
      URLSearchParams.getAll "format" search = ["json"]
      /\ URLSearchParams.getAll "formatversion" search = ["2"]
      /\ URLSearchParams.getAll "errorformat" search = ["plaintext"]).
Proof.
  split.
  - apply createSearchParams_returns.
  - intros search H.
    apply createSearchParams_inv in H as [found [_ ->]].
    repeat split.
    + rewrite !getAll_set_other by discriminate. apply getAll_set_same.
    + rewrite getAll_set_other by discriminate. apply getAll_set_same.
    + apply getAll_set_same.
Qed.

Lemma reserved_keys_fixed_witness :
  let params : @Params Sample.bare :=
    [("action", Single (PString "parse"));
     ("format", Single (PString "xml"));
     ("since", Single (@PDate Sample.bare Sample.Epoch));
     ("formatversion", Multi [@PNumber Sample.bare 1%Z; PNull]);
     ("errorformat", Single (PBoolean true))] in
  exists search,
    createSearchParams params = Ok search
    /\ URLSearchParams.getAll "format" search = ["json"]
    /\ URLSearchParams.getAll "formatversion" search = ["2"]
    /\ URLSearchParams.getAll "errorformat" search = ["plaintext"].
Proof.
  intros params.
  destruct (@reserved_keys_fixed Sample.bare params) as [Hreturns Hfixed].
  destruct Hreturns as [search Hsearch].
  - intros key value d Hin Hd. simpl in Hin.
    repeat (destruct Hin as [Hin|Hin]; [injection Hin as <- <- |]);
      simpl in Hd; try contradiction.
    destruct Hd as [<-|[]]. exists "1970-01-01T00:00:00.000Z". reflexivity.
  - exists search. split; [exact Hsearch | exact (Hfixed search Hsearch)].
Defined.

(** C3: an array none of whose strings has a [|] is joined with [|]; an
    array one of whose strings has a [|] becomes the unit separator
    followed by the strings joined with the unit separator; a scalar whose
    string has a [|] becomes the unit separator followed by that string.
    This holds of [toValues] on any values, and of the strings
    [createSearchParams] converts a value to before it calls [toValues]. *)
Theorem toValues_delimiter {host : Host} :
  (forall values,
      (forall v, In v values -> ~ In "|"%char (chars (js_String v))) ->
      toValues (Multi values) = join "|" (map js_String values))
  /\
  (forall values,
      (exists v, In v values /\ In "|"%char (chars (js_String v))) ->
      toValues (Multi values) = US ++ join US (map js_String values))
  /\
  (forall value,
      In "|"%char (chars (js_String value)) ->
      toValues (Single value) = US ++ js_String value)
  /\
  (forall values strings,
      mapM convert values = Ok strings ->
      ((forall s, In s strings -> ~ In "|"%char (chars s)) ->
       serialized (Multi values) = Ok (join "|" strings))
      /\
      ((exists s, In s strings /\ In "|"%char (chars s)) ->
       serialized (Multi values) = Ok (US ++ join US strings)))
  /\
  (forall value s,
      convert value = Ok s ->
      In "|"%char (chars s) ->
      serialized (Single value) = Ok (US ++ s)).
Proof.
  repeat split.
  - intros values Hno. unfold toValues.
    replace (some _ (map js_String values)) with false; [reflexivity |].
    symmetry. apply some_pipe_false. intros s Hs.
    apply in_map_iff in Hs as [v [<- Hv]]. now apply Hno.
  - intros values [v [Hv Hp]]. unfold toValues.
    replace (some _ (map js_String values)) with true; [reflexivity |].
    symmetry. apply some_pipe. exists (js_String v). split; auto.
    now apply in_map.
  - intros value Hp. unfold toValues.
    apply includes_pipe in Hp. now rewrite Hp.
  - intros Hno. unfold serialized. rewrite H. unfold Completion.bind.
    rewrite toValues_strings. unfold joined.
    apply some_pipe_false in Hno. now rewrite Hno.
  - intros Hsome. unfold serialized. rewrite H. unfold Completion.bind.
    rewrite toValues_strings. unfold joined.
    apply some_pipe in Hsome. now rewrite Hsome.
  - intros value s Hc Hp. unfold serialized. rewrite Hc.
    unfold Completion.bind, toValues, js_String.
    apply includes_pipe in Hp. now rewrite Hp.
Qed.

Lemma toValues_delimiter_witness :
  @toValues Sample.bare
    (Multi [PString "Main Page"; @PNumber Sample.bare 42%Z; PNull])
  = "Main Page|42|null"
  /\ @toValues Sample.bare (Multi [PString "a|b"; PString "c"])
     = US ++ "a|b" ++ US ++ "c"
  /\ @toValues Sample.bare (Single (PString "a|b")) = US ++ "a|b"
  /\ @serialized Sample.bare
       (Multi [PBoolean true; @PDate Sample.bare Sample.Epoch])
     = Ok "|1970-01-01T00:00:00.000Z"
  /\ @serialized Sample.bare (Multi [PString "x|y"; PBoolean false])
     = Ok (US ++ "x|y" ++ US)
  /\ @serialized Sample.bare (Single (PString "x|y")) = Ok (US ++ "x|y").
Proof.
  destruct (@toValues_delimiter Sample.bare)
    as [Hplain [Hpipe [Hscalar [Harray Hsingle]]]].
  split; [| split; [| split; [| split; [| split]]]].
  - apply (Hplain [PString "Main Page"; @PNumber Sample.bare 42%Z; PNull]).
    intros v [<-|[<-|[<-|[]]]]; vm_compute; intuition discriminate.
  - apply (Hpipe [PString "a|b"; PString "c"]).
    exists (PString "a|b"). split; [now left | vm_compute; tauto].
  - apply (Hscalar (PString "a|b")). vm_compute. tauto.
  - apply (proj1 (Harray [PBoolean true; @PDate Sample.bare Sample.Epoch]
                    [""; "1970-01-01T00:00:00.000Z"] eq_refl)).
    intros s [<-|[<-|[]]]; vm_compute; intuition discriminate.
  - apply (proj2 (Harray [PString "x|y"; PBoolean false] ["x|y"; ""] eq_refl)).
    exists "x|y". split; [now left | vm_compute; tauto].
  - apply (Hsingle (PString "x|y") "x|y" eq_refl). vm_compute. tauto.
Defined.

(** C4, as stated, fails on the reserved keys: the object
    [{ action: 'query', format: undefined }] has the key [format] with the
    value [undefined] and no key [formatversion], and the output has
    [format=json] and [formatversion=2]. *)
Lemma reserved_key_with_undefined_is_sent :
  let params : @Params Sample.bare :=
    [("action", Single (PString "query")); ("format", Single PUndefined)] in
  let search : URLSearchParams.t :=
    [("action", "query"); ("format", "json"); ("formatversion", "2");
     ("errorformat", "plaintext")] in
  JsObject.get "format" params = Some (Single PUndefined)
  /\ JsObject.get "formatversion" params = None
  /\ createSearchParams params = Ok search
  /\ URLSearchParams.has "format" search = true
  /\ URLSearchParams.get "format" search = Some "json"
  /\ URLSearchParams.has "formatversion" search = true.
Proof. repeat split. Qed.

(** C4, amended: for a key other than [format], [formatversion] and
    [errorformat], a value that is absent, [null], [undefined] or [false]
    keeps the key out of the output of [createSearchParams], and the value
    [true] puts the key in with the empty string as its only value. *)
Theorem plain_key_flags {host : Host} (params : Params)
  (search : URLSearchParams.t) (key : string) :
  NoDup (JsObject.keys params) ->
  createSearchParams params = Ok search ->
  key <> "format" -> key <> "formatversion" -> key <> "errorformat" ->
  (JsObject.get key params = None
   \/ JsObject.get key params = Some (Single PNull)
   \/ JsObject.get key params = Some (Single PUndefined)
   \/ JsObject.get key params = Some (Single (PBoolean false)) ->
   URLSearchParams.has key search = false
   /\ URLSearchParams.get key search = None)
  /\
  (JsObject.get key params = Some (Single (PBoolean true)) ->
   URLSearchParams.getAll key search = [""]
   /\ URLSearchParams.get key search = Some "").
Proof.
  intros Hnd Hs Hf Hfv Hef.
  assert (Hres : ~ reserved key) by (unfold reserved; tauto).
  pose proof (createSearchParams_key params search key Hnd Hs Hres) as Hkey.
  split.
  - intros Hget.
    assert (Hnone : URLSearchParams.getAll key search = []).
    { destruct Hget as [Hg|[Hg|[Hg|Hg]]]; rewrite Hg in Hkey; exact Hkey. }
    split; [now apply has_of_getAll |].
    exact (get_of_getAll key search [] Hnone).
  - intros Hg. rewrite Hg in Hkey. simpl in Hkey.
    destruct Hkey as [s [Hser Hall]]. injection Hser as <-.
    split; [exact Hall | exact (get_of_getAll key search [""] Hall)].
Qed.

Lemma plain_key_flags_witness :
  let params : @Params Sample.bare :=
    [("action", Single (PString "query")); ("redirects", Single (PBoolean true));
     ("converttitles", Single (PBoolean false)); ("titles", Single PNull);
     ("continue", Single PUndefined)] in
  let search : URLSearchParams.t :=
    [("action", "query"); ("redirects", ""); ("format", "json");
     ("formatversion", "2"); ("errorformat", "plaintext")] in
  createSearchParams params = Ok search
  /\ URLSearchParams.has "converttitles" search = false
  /\ URLSearchParams.has "titles" search = false
  /\ URLSearchParams.has "continue" search = false
  /\ URLSearchParams.has "prop" search = false
  /\ URLSearchParams.get "redirects" search = Some "".
Proof.
  intros params search.
  assert (Hnd : NoDup (JsObject.keys params)).
  { repeat constructor; simpl; intuition discriminate. }
  assert (Hs : createSearchParams params = Ok search) by reflexivity.
  split; [exact Hs |].
  split; [| split; [| split; [| split]]].
  - apply (proj1 (@plain_key_flags Sample.bare params search "converttitles"
                    Hnd Hs ltac:(discriminate) ltac:(discriminate)
                    ltac:(discriminate))).
    right. right. right. reflexivity.
  - apply (proj1 (@plain_key_flags Sample.bare params search "titles"
                    Hnd Hs ltac:(discriminate) ltac:(discriminate)
                    ltac:(discriminate))).
    right. left. reflexivity.
  - apply (proj1 (@plain_key_flags Sample.bare params search "continue"
                    Hnd Hs ltac:(discriminate) ltac:(discriminate)
                    ltac:(discriminate))).
    right. right. left. reflexivity.
  - apply (proj1 (@plain_key_flags Sample.bare params search "prop"
                    Hnd Hs ltac:(discriminate) ltac:(discriminate)
                    ltac:(discriminate))).
    left. reflexivity.
  - apply (proj2 (@plain_key_flags Sample.bare params search "redirects"
                    Hnd Hs ltac:(discriminate) ltac:(discriminate)
                    ltac:(discriminate))).
    reflexivity.
Defined.

(** C9: an element [null] or [undefined] of an array value is not dropped:
    [convert] turns it into the string [null] or [undefined], at its place
    among the strings that are joined, and the joined string is what the
    loop stores under the key; a key whose value itself is [null] or
    [undefined] is left out.  The three reserved keys are overwritten after
    the loop, so the output is read at the other keys. *)
Theorem array_null_elements_kept {host : Host} (params : Params)
  (search : URLSearchParams.t) (key : string) :
  NoDup (JsObject.keys params) ->
  createSearchParams params = Ok search ->
  (forall values,
      JsObject.get key params = Some (Multi values) ->
      exists strings,
        mapM convert values = Ok strings
        /\ length strings = length values
        /\ (forall i, nth_error values i = Some PNull ->
                      nth_error strings i = Some "null")
        /\ (forall i, nth_error values i = Some PUndefined ->
                      nth_error strings i = Some "undefined")
        /\ visit URLSearchParams.empty (key, Multi values)
           = Ok [(key, joined strings)]
        /\ (key <> "format" -> key <> "formatversion" ->
            key <> "errorformat" ->
            URLSearchParams.getAll key search = [joined strings]))
  /\
  (JsObject.get key params = Some (Single PNull)
   \/ JsObject.get key params = Some (Single PUndefined) ->
   visit URLSearchParams.empty (key, Single PNull) = Ok []
   /\ visit URLSearchParams.empty (key, Single PUndefined) = Ok []
   /\ (key <> "format" -> key <> "formatversion" -> key <> "errorformat" ->
       URLSearchParams.has key search = false)).
Proof.
  intros Hnd Hs. split.
  - intros values Hget.
    assert (Hser : exists s, serialized (Multi values) = Ok s).
    { destruct (createSearchParams_inv params search Hs) as [found [Hloop _]].
      pose proof (loop_value params _ _ key _ Hnd Hloop Hget) as Hv.
      simpl in Hv. destruct Hv as [s [Hv _]]. eauto. }
    destruct Hser as [s0 Hser]. unfold serialized in Hser.
    destruct (mapM convert values) as [strings|] eqn:Hmap;
      [| discriminate].
    exists strings. split; [reflexivity |].
    split; [now apply (mapM_length convert values) |].
    split; [| split; [| split]].
    + intros i Hi.
      destruct (mapM_nth convert values strings i PNull Hmap Hi)
        as [y [Hy Hnth]].
      injection Hy as <-. exact Hnth.
    + intros i Hi.
      destruct (mapM_nth convert values strings i PUndefined Hmap Hi)
        as [y [Hy Hnth]].
      injection Hy as <-. exact Hnth.
    + unfold visit, skipped, serialized. rewrite Hmap.
      unfold Completion.bind. now rewrite toValues_strings.
    + intros Hf Hfv Hef.
      assert (Hres : ~ reserved key) by (unfold reserved; tauto).
      pose proof (createSearchParams_key params search key Hnd Hs Hres)
        as Hkey.
      rewrite Hget in Hkey. cbn [skipped] in Hkey.
      destruct Hkey as [s [Hser' Hall]].
      unfold serialized in Hser'. rewrite Hmap in Hser'.
      unfold Completion.bind in Hser'. rewrite toValues_strings in Hser'.
      injection Hser' as <-. exact Hall.
  - intros Hget. split; [reflexivity | split; [reflexivity |]].
    intros Hf Hfv Hef.
    assert (Hres : ~ reserved key) by (unfold reserved; tauto).
    pose proof (createSearchParams_key params search key Hnd Hs Hres) as Hkey.
    apply has_of_getAll.
    destruct Hget as [Hg|Hg]; rewrite Hg in Hkey; exact Hkey.
Qed.

Lemma array_null_elements_kept_witness :
  let params : @Params Sample.bare :=
    [("action", Single (PString "query"));
     ("titles", Multi [PString "A"; PNull; PUndefined; PString "B"]);
     ("prop", Single PNull)] in
  let search : URLSearchParams.t :=
    [("action", "query"); ("titles", "A|null|undefined|B");
     ("format", "json"); ("formatversion", "2");
     ("errorformat", "plaintext")] in
  createSearchParams params = Ok search
  /\ (exists strings,
         mapM (@convert Sample.bare)
           [PString "A"; PNull; PUndefined; PString "B"] = Ok strings
         /\ nth_error strings 1 = Some "null"
         /\ nth_error strings 2 = Some "undefined"
         /\ URLSearchParams.getAll "titles" search = [joined strings])
  /\ URLSearchParams.has "prop" search = false.
Proof.
  intros params search.
  assert (Hnd : NoDup (JsObject.keys params)).
  { repeat constructor; simpl; intuition discriminate. }
  assert (Hs : createSearchParams params = Ok search) by reflexivity.
  split; [exact Hs | split].
  - destruct (proj1 (@array_null_elements_kept Sample.bare params search
                       "titles" Hnd Hs)
                [PString "A"; PNull; PUndefined; PString "B"] eq_refl)
      as [strings [Hmap [_ [Hnull [Hundef [_ Hall]]]]]].
    exists strings. split; [exact Hmap |].
    split; [apply (Hnull 1); reflexivity |].
    split; [apply (Hundef 2); reflexivity |].
    apply Hall; discriminate.
  - apply (proj2 (@array_null_elements_kept Sample.bare params search
                    "prop" Hnd Hs)); [left; reflexivity | | |]; discriminate.
Defined.

(* ================================================================= *)
(** ** The envelope *)

(** C1: when the answer has the field [errors], [get], [post] and [query]
    end with one [Error] and no value; its message is the entries in their
    order, each written [[module] code: text], with a line feed between
    two of them; one bare object counts as an array of one entry. *)
Theorem errors_abort_the_call {host : Host} :
  (forall R (body : MediaWikiResponseBody R) (this : HttpClient.t R)
          params st search result w errs,
      createSearchParams params = Ok search ->
      transport (HttpClient.client this) (options (HttpClient.client this))
        (HttpClient.get_request this search) (world st) = (Ok result, w) ->
      errors result = Some errs ->
      fst (HttpClient.get this params st)
      = Throw (Error (join LF (map format_entry (as_array errs)))))
  /\
  (forall R (body : MediaWikiResponseBody R) (this : HttpClient.t R)
          params st search result w errs,
      createSearchParams params = Ok search ->
      transport (HttpClient.client this) (options (HttpClient.client this))
        (HttpClient.post_request this search) (world st) = (Ok result, w) ->
      errors result = Some errs ->
      fst (HttpClient.post this params st)
      = Throw (Error (join LF (map format_entry (as_array errs)))))
  /\
  (forall T (this : HttpClient.t (QueryResponseBody T))
          params st search result w errs,
      createSearchParams (HttpClient.with_action_query params) = Ok search ->
      transport (HttpClient.client this) (options (HttpClient.client this))
        (HttpClient.get_request this search) (world st) = (Ok result, w) ->
      errors result = Some errs ->
      fst (HttpClient.query this params st)
      = Throw (Error (join LF (map format_entry (as_array errs)))))
  /\
  (forall e,
      format_entry e = "[" ++ module e ++ "] " ++ code e ++ ": " ++ text e
      /\ as_array (One e) = as_array (Many [e])
      /\ HttpClient.checkErrors (Some (One e))
         = HttpClient.checkErrors (Some (Many [e]))
      /\ HttpClient.checkErrors (Some (One e)) = Throw (Error (format_entry e))).
Proof.
  split; [| split; [| split]].
  - intros R body this params st search result w errs Hs Ht He.
    rewrite (get_run this params st search _ w Hs Ht).
    now rewrite He.
  - intros R body this params st search result w errs Hs Ht He.
    rewrite (post_run this params st search _ w Hs Ht).
    now rewrite He.
  - intros T this params st search result w errs Hs Ht He.
    rewrite query_run.
    rewrite (get_run this _ st search _ w Hs Ht).
    now rewrite He.
  - intros e. repeat split.
Qed.

Lemma errors_abort_the_call_witness :
  fst (HttpClient.get
         (Sample.wiki (Ok (Sample.answer None
                             (Some (Many [Sample.badtoken; Sample.unknown])))))
         Sample.ignored Sample.start)
  = Throw (Error ("[edit] badtoken: Invalid CSRF token." ++ LF
                  ++ "[main] unrecognizedparams: Unrecognized parameter: foo."))
  /\
  fst (HttpClient.post
         (Sample.wiki (Ok (Sample.answer None (Some (One Sample.badtoken)))))
         Sample.ignored Sample.start)
  = Throw (Error "[edit] badtoken: Invalid CSRF token.")
  /\
  fst (HttpClient.query
         (Sample.wiki (Ok (Sample.answer None (Some (Many [])))))
         Sample.ignored Sample.start)
  = Throw (Error "").
Proof.
  destruct (@errors_abort_the_call Sample.bare) as [Hget [Hpost [Hquery _]]].
  split; [| split].
  - exact (Hget _ _
             (Sample.wiki (Ok (Sample.answer None
                (Some (Many [Sample.badtoken; Sample.unknown])))))
             Sample.ignored Sample.start
             [("action", "ignoredOnPurpose"); ("list", "foo");
              ("format", "json"); ("formatversion", "2");
              ("errorformat", "plaintext")]
             _ 1 _ eq_refl eq_refl eq_refl).
  - exact (Hpost _ _
             (Sample.wiki (Ok (Sample.answer None
                (Some (One Sample.badtoken)))))
             Sample.ignored Sample.start
             [("action", "ignoredOnPurpose"); ("list", "foo");
              ("format", "json"); ("formatversion", "2");
              ("errorformat", "plaintext")]
             _ 1 _ eq_refl eq_refl eq_refl).
  - exact (Hquery _
             (Sample.wiki (Ok (Sample.answer None (Some (Many [])))))
             Sample.ignored Sample.start
             [("action", "query"); ("list", "foo");
              ("format", "json"); ("formatversion", "2");
              ("errorformat", "plaintext")]
             _ 1 _ eq_refl eq_refl eq_refl).
Defined.

(** C5: when the answer has [warnings] and no [errors], [get] and [post]
    write one line per warning with [console.warn], in the order of the
    answer, each the text [[module] code: text] as [chalk.yellow] styles
    it, and then return the parsed body as it came. *)
Theorem warnings_logged_body_returned {host : Host} {R}
  {body : MediaWikiResponseBody R} (this : HttpClient.t R) (params : Params)
  (st : State) (search : URLSearchParams.t) (result : R)
  (ws : list MediaWikiError) :
  createSearchParams params = Ok search ->
  warnings result = Some ws ->
  errors result = None ->
  (forall w,
      transport (HttpClient.client this) (options (HttpClient.client this))
        (HttpClient.get_request this search) (world st) = (Ok result, w) ->
      fst (HttpClient.get this params st) = Ok result
      /\ console (snd (HttpClient.get this params st))
         = (console st
            ++ map (fun warning =>
                      chalk_yellow ("[" ++ module warning ++ "] "
                                    ++ code warning ++ ": " ++ text warning))
                 ws)%list)
  /\
  (forall w,
      transport (HttpClient.client this) (options (HttpClient.client this))
        (HttpClient.post_request this search) (world st) = (Ok result, w) ->
      fst (HttpClient.post this params st) = Ok result
      /\ console (snd (HttpClient.post this params st))
         = (console st
            ++ map (fun warning =>
                      chalk_yellow ("[" ++ module warning ++ "] "
                                    ++ code warning ++ ": " ++ text warning))
                 ws)%list).
Proof.
  intros Hs Hw He. split; intros w Ht.
  - rewrite (get_run this params st search _ w Hs Ht).
    rewrite He, Hw. split; reflexivity.
  - rewrite (post_run this params st search _ w Hs Ht).
    rewrite He, Hw. split; reflexivity.
Qed.

Lemma warnings_logged_body_returned_witness :
  let result :=
    Sample.answer (Some [Sample.deprecated; Sample.unknown]) None in
  let lines :=
    ["[query+revisions] deprecation: Use rvslots.";
     "[main] unrecognizedparams: Unrecognized parameter: foo."] in
  (fst (HttpClient.get (Sample.wiki (Ok result)) Sample.ignored Sample.start)
   = Ok result
   /\ console (snd (HttpClient.get (Sample.wiki (Ok result)) Sample.ignored
                      Sample.start)) = lines)
  /\
  (fst (HttpClient.post (Sample.wiki (Ok result)) Sample.ignored Sample.start)
   = Ok result
   /\ console (snd (HttpClient.post (Sample.wiki (Ok result)) Sample.ignored
                      Sample.start)) = lines).
Proof.
  intros result lines.
  destruct (@warnings_logged_body_returned Sample.bare _
              (QueryResponseBody_body nat)
              (Sample.wiki (Ok result)) Sample.ignored Sample.start
              [("action", "ignoredOnPurpose"); ("list", "foo");
               ("format", "json"); ("formatversion", "2");
               ("errorformat", "plaintext")]
              result [Sample.deprecated; Sample.unknown]
              eq_refl eq_refl eq_refl) as [Hget Hpost].
  split; [exact (Hget 1 eq_refl) | exact (Hpost 1 eq_refl)].
Defined.

(** C10: in [get] and in [post] the warning check is over before the error
    check starts: when the answer has both fields, every warning has its
    line on the console, in order, and the call ends with the error built
    from [errors]. *)
Theorem warnings_logged_before_errors_thrown {host : Host} {R}
  {body : MediaWikiResponseBody R} (this : HttpClient.t R) (params : Params)
  (st : State) (search : URLSearchParams.t) (result : R)
  (ws : list MediaWikiError) (errs : OneOrMany MediaWikiError) :
  createSearchParams params = Ok search ->
  warnings result = Some ws ->
  errors result = Some errs ->
  (forall w,
      transport (HttpClient.client this) (options (HttpClient.client this))
        (HttpClient.get_request this search) (world st) = (Ok result, w) ->
      fst (HttpClient.get this params st)
      = Throw (Error (join LF (map format_entry (as_array errs))))
      /\ console (snd (HttpClient.get this params st))
         = (console st
            ++ map (fun warning => chalk_yellow (format_entry warning)) ws)%list)
  /\
  (forall w,
      transport (HttpClient.client this) (options (HttpClient.client this))
        (HttpClient.post_request this search) (world st) = (Ok result, w) ->
      fst (HttpClient.post this params st)
      = Throw (Error (join LF (map format_entry (as_array errs))))
      /\ console (snd (HttpClient.post this params st))
         = (console st
            ++ map (fun warning => chalk_yellow (format_entry warning)) ws)%list)
  /\
  (forall st', exists st'',
      HttpClient.checkWarnings (warnings result) st' = (Ok tt, st'')).
Proof.
  intros Hs Hw He. split; [| split].
  - intros w Ht. rewrite (get_run this params st search _ w Hs Ht).
    rewrite He, Hw. split; reflexivity.
  - intros w Ht. rewrite (post_run this params st search _ w Hs Ht).
    rewrite He, Hw. split; reflexivity.
  - intros st'. rewrite checkWarnings_run. eauto.
Qed.

Lemma warnings_logged_before_errors_thrown_witness :
  let result :=
    Sample.answer (Some [Sample.deprecated; Sample.unknown])
      (Some (Many [Sample.badtoken])) in
  let lines :=
    ["[query+revisions] deprecation: Use rvslots.";
     "[main] unrecognizedparams: Unrecognized parameter: foo."] in
  (fst (HttpClient.get (Sample.wiki (Ok result)) Sample.ignored Sample.start)
   = Throw (Error "[edit] badtoken: Invalid CSRF token.")
   /\ console (snd (HttpClient.get (Sample.wiki (Ok result)) Sample.ignored
                      Sample.start)) = lines)
  /\
  (fst (HttpClient.post (Sample.wiki (Ok result)) Sample.ignored Sample.start)
   = Throw (Error "[edit] badtoken: Invalid CSRF token.")
   /\ console (snd (HttpClient.post (Sample.wiki (Ok result)) Sample.ignored
                      Sample.start)) = lines).
Proof.
  intros result lines.
  destruct (@warnings_logged_before_errors_thrown Sample.bare _
              (QueryResponseBody_body nat)
              (Sample.wiki (Ok result)) Sample.ignored Sample.start
              [("action", "ignoredOnPurpose"); ("list", "foo");
               ("format", "json"); ("formatversion", "2");
               ("errorformat", "plaintext")]
              result [Sample.deprecated; Sample.unknown]
              (Many [Sample.badtoken])
              eq_refl eq_refl eq_refl) as [Hget [Hpost _]].
  split; [exact (Hget 1 eq_refl) | exact (Hpost 1 eq_refl)].
Defined.

(* ================================================================= *)
(** ** query, post and the constructor *)

(** C6: [query] hands [got] one GET whose parameters are those of the
    object with [action] set to [query], whatever the caller gave for
    [action], so that [action=query] is sent; for
    [{ action: 'ignoredOnPurpose', list: 'foo' }] the query string is
    [action=query&list=foo&format=json&formatversion=2&errorformat=plaintext];
    and what [query] returns is the field [query] of the parsed body. *)
Theorem query_forces_action_and_unwraps {host : Host} {T}
  (this : HttpClient.t (QueryResponseBody T)) (params : Params) (st : State)
  (search : URLSearchParams.t) :
  createSearchParams (HttpClient.with_action_query params) = Ok search ->
  URLSearchParams.getAll "action" search = ["query"]
  /\
  requests (snd (HttpClient.query this params st))
  = (requests st
     ++ [{| method := GET; url := HttpClient.endpoint this;
            searchParams := Some search; form := None |}])%list
  /\
  (forall result w,
      transport (HttpClient.client this) (options (HttpClient.client this))
        (HttpClient.get_request this search) (world st) = (Ok result, w) ->
      errors result = None ->
      fst (HttpClient.query this params st) = Ok (query result))
  /\
  (exists example,
      createSearchParams
        (HttpClient.with_action_query
           [("action", Single (PString "ignoredOnPurpose"));
            ("list", Single (PString "foo"))]) = Ok example
      /\ URLSearchParams.toString example
         = "action=query&list=foo&format=json&formatversion=2&errorformat=plaintext").
Proof.
  intros Hs. split; [| split; [| split]].
  - assert (Hres : ~ reserved "action")
      by (unfold reserved; intuition discriminate).
    pose proof (createSearchParams_key _ search "action"
                  (with_action_query_NoDup params) Hs Hres) as Hkey.
    rewrite with_action_query_action in Hkey.
    destruct Hkey as [s [Hser Hall]].
    injection Hser as <-. exact Hall.
  - rewrite query_run.
    destruct (transport (HttpClient.client this)
                (options (HttpClient.client this))
                (HttpClient.get_request this search) (world st))
      as [answer w] eqn:Ht.
    rewrite (get_run this _ st search answer w Hs Ht).
    destruct answer as [result|e]; [| reflexivity].
    destruct (HttpClient.checkErrors (errors result)); reflexivity.
  - intros result w Ht He.
    rewrite query_run, (get_run this _ st search _ w Hs Ht), He.
    reflexivity.
  - eexists. split; reflexivity.
Qed.

Lemma query_forces_action_and_unwraps_witness :
  let this :=
    Sample.wiki (Ok (Sample.answer (Some [Sample.deprecated]) None)) in
  let search : URLSearchParams.t :=
    [("action", "query"); ("list", "foo"); ("format", "json");
     ("formatversion", "2"); ("errorformat", "plaintext")] in
  createSearchParams (HttpClient.with_action_query Sample.ignored) = Ok search
  /\ URLSearchParams.getAll "action" search = ["query"]
  /\ requests (snd (HttpClient.query this Sample.ignored Sample.start))
     = [{| method := GET; url := "https://wiki.example/api.php";
           searchParams := Some search; form := None |}]
  /\ fst (HttpClient.query this Sample.ignored Sample.start) = Ok 7.
Proof.
  intros this search.
  destruct (@query_forces_action_and_unwraps Sample.bare nat this
              Sample.ignored Sample.start search eq_refl)
    as [Haction [Hsent [Hvalue _]]].
  split; [reflexivity |].
  split; [exact Haction |].
  split; [exact Hsent |].
  exact (Hvalue (Sample.answer (Some [Sample.deprecated]) None) 1
           eq_refl eq_refl).
Defined.

(** C8: for one parameter object, the pairs [post] puts in the form body
    are the pairs [get] puts in the query string: a pair is in one exactly
    when it is in the other, and no name occurs twice in either.  When the
    object cannot be serialised, neither method sends anything. *)
Theorem post_sends_the_pairs_of_get {host : Host} {R}
  {body : MediaWikiResponseBody R} (this : HttpClient.t R) (params : Params)
  (st : State) :
  (forall search,
      createSearchParams params = Ok search ->
      exists pairs,
        requests (snd (HttpClient.get this params st))
        = (requests st
           ++ [{| method := GET; url := HttpClient.endpoint this;
                  searchParams := Some search; form := None |}])%list
        /\ requests (snd (HttpClient.post this params st))
           = (requests st
              ++ [{| method := POST; url := HttpClient.endpoint this;
                     searchParams := None; form := Some pairs |}])%list
        /\ (forall name value,
               In (name, value) pairs
               <-> In (name, value) (URLSearchParams.entries search))
        /\ NoDup (map fst pairs)
        /\ NoDup (map fst (URLSearchParams.entries search)))
  /\
  (forall e,
      createSearchParams params = Throw e ->
      requests (snd (HttpClient.get this params st)) = requests st
      /\ requests (snd (HttpClient.post this params st)) = requests st).
Proof.
  split.
  - intros search Hs.
    pose proof (createSearchParams_NoDup params search Hs) as Hnd.
    exists (JsObject.fromEntries (URLSearchParams.entries search)).
    split; [| split; [| split; [| split]]].
    + destruct (transport (HttpClient.client this)
                  (options (HttpClient.client this))
                  (HttpClient.get_request this search) (world st))
        as [answer w] eqn:Ht.
      rewrite (get_run this params st search answer w Hs Ht).
      destruct answer as [result|e]; reflexivity.
    + destruct (transport (HttpClient.client this)
                  (options (HttpClient.client this))
                  (HttpClient.post_request this search) (world st))
        as [answer w] eqn:Ht.
      rewrite (post_run this params st search answer w Hs Ht).
      destruct answer as [result|e]; reflexivity.
    + intros name value.
      rewrite (object_fromEntries_copy _ (URLSearchParams.entries search) Hnd).
      reflexivity.
    + rewrite (object_fromEntries_copy _ (URLSearchParams.entries search) Hnd).
      exact Hnd.
    + exact Hnd.
  - intros e Hs.
    rewrite (get_throws_early this params st e Hs).
    rewrite (post_throws_early this params st e Hs).
    split; reflexivity.
Qed.

Lemma post_sends_the_pairs_of_get_witness :
  let this :=
    Sample.wiki (Ok (Sample.answer None None)) in
  let params : @Params Sample.bare :=
    [("action", Single (PString "edit"));
     ("title", Single (PString "Main Page"));
     ("tags", Multi [PString "a|b"; PString "c"]);
     ("bot", Single (PBoolean true))] in
  let search : URLSearchParams.t :=
    [("action", "edit"); ("title", "Main Page");
     ("tags", US ++ "a|b" ++ US ++ "c"); ("bot", "");
     ("format", "json"); ("formatversion", "2");
     ("errorformat", "plaintext")] in
  exists pairs,
    requests (snd (HttpClient.get this params Sample.start))
    = [{| method := GET; url := "https://wiki.example/api.php";
          searchParams := Some search; form := None |}]
    /\ requests (snd (HttpClient.post this params Sample.start))
       = [{| method := POST; url := "https://wiki.example/api.php";
             searchParams := None; form := Some pairs |}]
    /\ (forall name value, In (name, value) pairs <-> In (name, value) search).
Proof.
  intros this params search.
  destruct (proj1 (@post_sends_the_pairs_of_get Sample.bare _
                     (QueryResponseBody_body nat) this params Sample.start)
              search eq_refl)
    as [pairs [Hget [Hpost [Hsame _]]]].
  exists pairs. split; [exact Hget | split; [exact Hpost | exact Hsame]].
Defined.

(** C7, as stated, fails: with a [package.json] that exists and is not
    JSON, [JSON.parse] throws and so does the constructor. *)
Lemma constructor_throws_on_unparsable_package_json :
  @fs_existsSync Sample.broken
    (@getRelativePath Sample.broken "../package.json"
       (@import_meta_url Sample.broken)) = true
  /\ @fs_readFileSync Sample.broken
       (@getRelativePath Sample.broken "../package.json"
          (@import_meta_url Sample.broken)) = Ok "not json"
  /\ @JSON_parse Sample.broken "not json" = Throw SyntaxError
  /\ @HttpClient.getUserAgent Sample.broken = Throw SyntaxError
  /\ @HttpClient.constructor Sample.broken nat
       (Sample.server _ (Throw (Failure "offline")))
       "https://wiki.example/api.php" = Throw SyntaxError.
Proof. repeat split. Qed.

(** C7, amended: the constructor tolerates the absence of the packaging
    metadata file: when the file does not exist the user agent is
    [HuijiMWClient/Unknown] and the client is built, with nothing written
    anywhere.  A file that exists is read and parsed without a guard: what
    reading or parsing throws, the constructor throws. *)
Theorem constructor_without_package_json {host : Host} {R} (got : Got R)
  (endpoint : string) :
  (fs_existsSync (getRelativePath "../package.json" import_meta_url) = false ->
   HttpClient.getUserAgent = Ok "HuijiMWClient/Unknown"
   /\ HttpClient.constructor got endpoint
      = Ok {| HttpClient.endpoint := endpoint;
              HttpClient.client :=
                got_extend got
                  {| cookieJar := Some new_CookieJar;
                     headers := [("User-Agent", "HuijiMWClient/Unknown")] |}
           |})
  /\
  (forall e,
      fs_existsSync (getRelativePath "../package.json" import_meta_url) = true ->
      fs_readFileSync (getRelativePath "../package.json" import_meta_url)
      = Throw e
      \/ (exists content,
             fs_readFileSync (getRelativePath "../package.json" import_meta_url)
             = Ok content
             /\ JSON_parse content = Throw e) ->
      HttpClient.constructor got endpoint = Throw e).
Proof.
  split.
  - intros Hno. unfold HttpClient.constructor, HttpClient.getUserAgent.
    rewrite Hno. split; reflexivity.
  - intros e Hyes Hfail.
    unfold HttpClient.constructor, HttpClient.getUserAgent.
    rewrite Hyes.
    destruct Hfail as [Hread|[content [Hread Hparse]]]; rewrite Hread; simpl.
    + reflexivity.
    + rewrite Hparse. reflexivity.
Qed.

Lemma constructor_without_package_json_witness :
  @HttpClient.getUserAgent Sample.bare = Ok "HuijiMWClient/Unknown"
  /\ (exists this,
         @HttpClient.constructor Sample.bare nat
           (Sample.server [] (Ok 0)) "https://wiki.example/api.php" = Ok this
         /\ headers (options (HttpClient.client this))
            = [("User-Agent", "HuijiMWClient/Unknown")])
  /\ @HttpClient.constructor Sample.broken nat
       (Sample.server _ (Ok 0)) "https://wiki.example/api.php"
     = Throw SyntaxError.
Proof.
  destruct (proj1 (@constructor_without_package_json Sample.bare nat
                     (Sample.server [] (Ok 0)) "https://wiki.example/api.php")
              eq_refl) as [Hagent Hbuilt].
  split; [exact Hagent |].
  split.
  - eexists. split; [exact Hbuilt | reflexivity].
  - apply (proj2 (@constructor_without_package_json Sample.broken nat
                    (Sample.server _ (Ok 0)) "https://wiki.example/api.php")
             SyntaxError eq_refl).
    right. exists "not json". split; reflexivity.
Defined.

(** With a well-formed [package.json] the user agent carries both
    versions, the caret of the dependency range removed. *)
Example user_agent_of_a_packaged_host :
  @HttpClient.getUserAgent Sample.packaged
  = Ok "HuijiMWClient/1.0.0 Got/12.5.3".
Proof. reflexivity. Qed.

(* ================================================================= *)
(** * Further properties of the code *)

(* ================================================================= *)
(** ** createSearchParams as a whole *)

Lemma search_set_fresh (name value : string) (search : URLSearchParams.t) :
  ~ In name (URLSearchParams.keys search) ->
  URLSearchParams.set name value search = (search ++ [(name, value)])%list.
Proof.
  induction search as [|[n v] rest IH]; simpl; intros Hnin; auto.
  destruct (String.eqb_spec n name) as [->|Hn]; [tauto |].
  f_equal. apply IH. tauto.
Qed.

Lemma keys_combine (names strings : list string) (key : string) :
  In key (URLSearchParams.keys (combine names strings)) -> In key names.
Proof.
  unfold URLSearchParams.keys. rewrite in_map_iff.
  intros [[n v] [<- Hin]]. simpl. now apply (in_combine_l names strings n v).
Qed.

Lemma keys_kept {host : Host} (params : Params) (key : string) :
  In key (map fst (kept params)) -> In key (JsObject.keys params).
Proof.
  unfold kept, JsObject.keys. rewrite !in_map_iff.
  intros [entry [Hk Hin]]. apply filter_In in Hin as [Hin _]. eauto.
Qed.

(** On names that are new to the list and distinct, the loop appends one
    pair per property it keeps, in the order of the object. *)
Lemma loop_appends {host : Host} (params : Params)
  (search search' : URLSearchParams.t) :
  NoDup (URLSearchParams.keys search ++ JsObject.keys params)%list ->
  foldM visit search params = Ok search' ->
  exists strings,
    mapM (fun entry => serialized (snd entry)) (kept params) = Ok strings
    /\ search' = (search ++ combine (map fst (kept params)) strings)%list.
Proof.
  revert search. induction params as [|[k v] rest IH]; simpl;
    intros search Hnd H.
  - injection H as <-. exists []. split; [reflexivity |].
    now rewrite app_nil_r.
  - unfold kept. simpl. fold (kept rest).
    destruct (skipped v) eqn:Hskip; simpl in *.
    + apply (IH search); [| exact H]. now apply NoDup_remove_1 in Hnd.
    + destruct (serialized v) as [s|] eqn:Hser; simpl in H; [| discriminate].
      assert (Hfresh : ~ In k (URLSearchParams.keys search)).
      { apply NoDup_remove_2 in Hnd. rewrite in_app_iff in Hnd. tauto. }
      rewrite (search_set_fresh k s search Hfresh) in H.
      destruct (IH (search ++ [(k, s)])%list) as [strings [Hmap Hout]];
        [| exact H |].
      * unfold URLSearchParams.keys in *. rewrite map_app. simpl.
        rewrite <- app_assoc. exact Hnd.
      * exists (s :: strings). rewrite Hmap. simpl. split; [reflexivity |].
        rewrite Hout, <- app_assoc. reflexivity.
Qed.

(** X2: for an object with distinct names, none of them reserved, the
    output of [createSearchParams] is one pair per property that is not
    skipped, under the name of the property and in the order of the object,
    followed by [format=json], [formatversion=2], [errorformat=plaintext]. *)
Theorem createSearchParams_in_order {host : Host} (params : Params)
  (search : URLSearchParams.t) :
  NoDup (JsObject.keys params) ->
  (forall key, In key (JsObject.keys params) ->
               key <> "format" /\ key <> "formatversion"
               /\ key <> "errorformat") ->
  createSearchParams params = Ok search ->
  exists strings,
    mapM (fun entry => serialized (snd entry)) (kept params) = Ok strings
    /\ length strings = length (kept params)
    /\ search
       = (combine (map fst (kept params)) strings
          ++ [("format", "json"); ("formatversion", "2");
              ("errorformat", "plaintext")])%list.
Proof.
  intros Hnd Hplain Hs.
  destruct (createSearchParams_inv params search Hs) as [found [Hloop ->]].
  destruct (loop_appends params URLSearchParams.empty found Hnd Hloop)
    as [strings [Hmap Hfound]].
  simpl in Hfound. subst found.
  exists strings. split; [exact Hmap |].
  split; [exact (mapM_length _ (kept params) strings Hmap) |].
  set (pairs := combine (map fst (kept params)) strings).
  assert (Hkeys : forall key, In key (URLSearchParams.keys pairs) ->
                              key <> "format" /\ key <> "formatversion"
                              /\ key <> "errorformat").
  { intros key Hin. apply Hplain, keys_kept.
    now apply (keys_combine _ strings). }
  rewrite (search_set_fresh "format" "json" pairs).
  2:{ intros Hin. apply Hkeys in Hin. tauto. }
  rewrite (search_set_fresh "formatversion" "2").
  2:{ unfold URLSearchParams.keys. rewrite map_app, in_app_iff. simpl.
      intros [Hin|[Hin|[]]]; [apply Hkeys in Hin; tauto | discriminate]. }
  rewrite (search_set_fresh "errorformat" "plaintext").
  2:{ unfold URLSearchParams.keys. rewrite !map_app, !in_app_iff. simpl.
      intros [[Hin|[Hin|[]]]|[Hin|[]]];
        [apply Hkeys in Hin; tauto | discriminate | discriminate]. }
  rewrite <- !app_assoc. reflexivity.
Qed.

Lemma createSearchParams_in_order_witness :
  let params : @Params Sample.bare :=
    [("action", Single (PString "query"));
     ("titles", Multi [PString "A"; PString "B"]);
     ("prop", Single PNull);
     ("redirects", Single (PBoolean true));
     ("converttitles", Single (PBoolean false));
     ("rvlimit", Single (@PNumber Sample.bare 5%Z))] in
  let search : URLSearchParams.t :=
    [("action", "query"); ("titles", "A|B"); ("redirects", EmptyString);
     ("rvlimit", "5"); ("format", "json"); ("formatversion", "2");
     ("errorformat", "plaintext")] in
  createSearchParams params = Ok search
  /\ exists strings,
       mapM (fun entry => serialized (snd entry)) (kept params) = Ok strings
       /\ length strings = length (kept params)
       /\ search
          = (combine (map fst (kept params)) strings
             ++ [("format", "json"); ("formatversion", "2");
                 ("errorformat", "plaintext")])%list.
Proof.
  intros params search.
  assert (Hnd : NoDup (JsObject.keys params)).
  { repeat constructor; simpl; intuition discriminate. }
  assert (Hplain : forall key, In key (JsObject.keys params) ->
                               key <> "format" /\ key <> "formatversion"
                               /\ key <> "errorformat").
  { simpl. intros key Hin.
    repeat (destruct Hin as [Hin|Hin];
            [subst key; repeat split; discriminate |]).
    contradiction. }
  split; [reflexivity |].
  exact (@createSearchParams_in_order Sample.bare params search Hnd Hplain
           eq_refl).
Defined.

Lemma mapM_in {A B} (f : A -> Result B) (xs : list A) (ys : list B) (x : A) :
  mapM f xs = Ok ys -> In x xs -> exists y, f x = Ok y.
Proof.
  intros Hmap Hin. apply In_nth_error in Hin as [i Hi].
  destruct (mapM_nth f xs ys i x Hmap Hi) as [y [Hy _]]. eauto.
Qed.

Lemma serialized_dates {host : Host} (value : ParamValue) (s : string) :
  serialized value = Ok s ->
  forall d, In d (dates value) -> exists iso, Date_toISOString d = Ok iso.
Proof.
  destruct value as [v|values]; simpl; intros Hser d Hd.
  - destruct v; simpl in Hd; try contradiction.
    destruct Hd as [<-|[]]. simpl in Hser.
    destruct (Date_toISOString d0) as [iso|]; [eauto | discriminate].
  - destruct (mapM convert values) as [strings|] eqn:Hmap; [| discriminate].
    unfold dates_of in Hd. apply in_flat_map in Hd as [v [Hv Hd]].
    destruct v; simpl in Hd; try contradiction.
    destruct Hd as [<-|[]].
    exact (mapM_in convert values strings (PDate d0) Hmap Hv).
Qed.

Lemma skipped_no_dates {host : Host} (value : ParamValue) :
  skipped value = true -> dates value = [].
Proof.
  destruct value as [[| |[|]| | |]|]; simpl; intros H;
    (discriminate || reflexivity).
Qed.

Lemma loop_dates {host : Host} (params : Params)
  (search search' : URLSearchParams.t) :
  foldM visit search params = Ok search' ->
  forall key value d,
    In (key, value) params -> In d (dates value) ->
    exists iso, Date_toISOString d = Ok iso.
Proof.
  revert search. induction params as [|[k v] rest IH]; simpl;
    intros search H key value d Hin Hd; [contradiction |].
  destruct (skipped v) eqn:Hskip; simpl in H.
  - destruct Hin as [Heq|Hin]; [| exact (IH _ H key value d Hin Hd)].
    injection Heq as <- <-.
    rewrite (skipped_no_dates v Hskip) in Hd. contradiction.
  - destruct (serialized v) as [s|] eqn:Hser; simpl in H; [| discriminate].
    destruct Hin as [Heq|Hin]; [| exact (IH _ H key value d Hin Hd)].
    injection Heq as <- <-. exact (serialized_dates v s Hser d Hd).
Qed.

(** X1: [createSearchParams] returns exactly for the objects that hold no
    invalid date, as a value or as an element of an array: the one call in
    it that can throw is [toISOString]. *)
Theorem createSearchParams_returns_iff {host : Host} (params : Params) :
  (exists search, createSearchParams params = Ok search)
  <->
  (forall key value d,
      In (key, value) params -> In d (dates value) ->
      exists iso, Date_toISOString d = Ok iso).
Proof.
  split.
  - intros [search Hs].
    destruct (createSearchParams_inv params search Hs) as [found [Hloop _]].
    exact (loop_dates params _ found Hloop).
  - apply createSearchParams_returns.
Qed.

Lemma createSearchParams_returns_iff_witness :
  (exists search,
      @createSearchParams Sample.bare
        [("action", Single (PString "query"));
         ("rvstart", Single (@PDate Sample.bare Sample.Epoch))] = Ok search)
  /\
  ~ (exists search,
        @createSearchParams Sample.bare
          [("action", Single (PString "query"));
           ("rvstart", Multi [PNull; @PDate Sample.bare Sample.InvalidDate])]
        = Ok search).
Proof.
  split.
  - apply (proj2 (@createSearchParams_returns_iff Sample.bare _)).
    intros key value d Hin Hd. simpl in Hin.
    repeat (destruct Hin as [Hin|Hin]; [injection Hin as <- <- |]);
      simpl in Hd; try contradiction.
    destruct Hd as [<-|[]]. exists "1970-01-01T00:00:00.000Z". reflexivity.
  - intros Hreturns.
    destruct (proj1 (@createSearchParams_returns_iff Sample.bare _) Hreturns
                "rvstart"
                (Multi [PNull; @PDate Sample.bare Sample.InvalidDate])
                Sample.InvalidDate)
      as [iso Hiso].
    + simpl. right. left. reflexivity.
    + simpl. left. reflexivity.
    + discriminate Hiso.
Defined.

(* ================================================================= *)
(** ** Values *)

Lemma foldM_app {A B} (f : A -> B -> Result A) (acc : A) (xs ys : list B) :
  foldM f acc (xs ++ ys)%list
  = Completion.bind (foldM f acc xs) (fun acc' => foldM f acc' ys).
Proof.
  revert acc. induction xs as [|x xs IH]; simpl; intros acc; [reflexivity |].
  destruct (f acc x); simpl; [apply IH | reflexivity].
Qed.

(** X3: an array of one element is serialised as that element alone:
    [toValues] gives the same string, and, unless the element is [null],
    [undefined] or [false] (which the loop skips as a value of its own and
    keeps as an element), the output of [createSearchParams] is the same
    for the two objects. *)
Theorem single_element_array_as_scalar {host : Host} (v : Primitive) :
  toValues (Multi [v]) = toValues (Single v)
  /\
  (v <> PNull -> v <> PUndefined -> v <> PBoolean false ->
   forall (before after : Params) (key : string),
     createSearchParams (before ++ (key, Multi [v]) :: after)%list
     = createSearchParams (before ++ (key, Single v) :: after)%list).
Proof.
  split.
  - unfold toValues. simpl. unfold some. simpl.
    rewrite orb_false_r. reflexivity.
  - intros Hnull Hundef Hfalse before after key.
    assert (Hvisit : forall search,
               visit search (key, Multi [v]) = visit search (key, Single v)).
    { intros search. unfold visit.
      replace (skipped (Single v)) with false.
      2:{ destruct v as [| |[|]| | |]; simpl; congruence. }
      simpl. destruct (convert v) as [s|]; simpl; [| reflexivity].
      unfold some. simpl. rewrite orb_false_r. reflexivity. }
    unfold createSearchParams. rewrite !foldM_app.
    destruct (foldM visit URLSearchParams.empty before) as [found|];
      [| reflexivity].
    cbn [Completion.bind foldM]. now rewrite Hvisit.
Qed.

Lemma single_element_array_as_scalar_witness :
  @createSearchParams Sample.bare
    [("action", Single (PString "query")); ("titles", Multi [PString "A|B"]);
     ("list", Single (PString "foo"))]
  = @createSearchParams Sample.bare
      [("action", Single (PString "query")); ("titles", Single (PString "A|B"));
       ("list", Single (PString "foo"))].
Proof.
  apply (proj2 (@single_element_array_as_scalar Sample.bare (PString "A|B"))
           ltac:(discriminate) ltac:(discriminate) ltac:(discriminate)
           [("action", Single (PString "query"))]
           [("list", Single (PString "foo"))] "titles").
Defined.

Lemma append_empty (s : string) : s ++ EmptyString = s.
Proof. induction s as [|c s IH]; simpl; congruence. Qed.

(** The string after the first element of a joined list. *)
Lemma join_cons (c : ascii) (x : string) (rest : list string) :
  join (String c EmptyString) (x :: rest)
  = x ++ match rest with
         | [] => EmptyString
         | _ :: _ => String c (join (String c EmptyString) rest)
         end.
Proof.
  unfold join. destruct rest; simpl; [now rewrite append_empty | reflexivity].
Qed.

(** A string without [c], followed by nothing or by [c] and more, is read
    back in one way only. *)
Lemma split_unique (c : ascii) (s1 s2 t1 t2 : string) :
  ~ In c (chars s1) -> ~ In c (chars s2) ->
  (t1 = EmptyString \/ exists r, t1 = String c r) ->
  (t2 = EmptyString \/ exists r, t2 = String c r) ->
  s1 ++ t1 = s2 ++ t2 -> s1 = s2 /\ t1 = t2.
Proof.
  revert s2. induction s1 as [|a s1 IH]; intros s2 H1 H2 Ht1 Ht2 Heq.
  - destruct s2 as [|b s2]; simpl in *; [auto |].
    destruct Ht1 as [->|[r ->]]; [discriminate |].
    injection Heq as <- _. tauto.
  - destruct s2 as [|b s2]; simpl in *.
    + destruct Ht2 as [->|[r ->]]; [discriminate |].
      injection Heq as -> _. tauto.
    + injection Heq as <- Heq.
      destruct (IH s2) as [-> ->]; auto.
Qed.

Lemma join_injective (c : ascii) (l1 l2 : list string) :
  l1 <> [] -> l2 <> [] ->
  (forall s, In s l1 -> ~ In c (chars s)) ->
  (forall s, In s l2 -> ~ In c (chars s)) ->
  join (String c EmptyString) l1 = join (String c EmptyString) l2 ->
  l1 = l2.
Proof.
  revert l2. induction l1 as [|x1 r1 IH]; intros l2 Hn1 Hn2 H1 H2 Heq;
    [congruence |].
  destruct l2 as [|x2 r2]; [congruence |].
  rewrite !join_cons in Heq.
  apply split_unique with (c := c) in Heq as [-> Htail].
  - f_equal. destruct r1 as [|y1 r1], r2 as [|y2 r2]; try discriminate;
      [reflexivity |].
    injection Htail as Htail.
    apply IH; try discriminate; auto.
    + intros s Hs. apply H1. now right.
    + intros s Hs. apply H2. now right.
  - apply H1. now left.
  - apply H2. now left.
  - destruct r1; [now left | right; eauto].
  - destruct r2; [now left | right; eauto].
Qed.

Lemma joined_cases {host : Host} (strings : list string) :
  (joined strings = join "|" strings
   /\ forall s, In s strings -> ~ In "|"%char (chars s))
  \/ joined strings = US ++ join US strings.
Proof.
  unfold joined.
  destruct (some (fun value => includes value "|") strings) eqn:Hsome.
  - now right.
  - left. split; [reflexivity | now apply some_pipe_false].
Qed.

(** A pipe-joined list never reads as a list in the other form: it does
    not start with the unit separator. *)
Lemma plain_join_not_escaped (l : list string) (rest : string) :
  l <> [] ->
  (forall s, In s l -> ~ In (ascii_of_nat 31) (chars s)) ->
  join "|" l <> US ++ rest.
Proof.
  intros Hn Hfree Heq. destruct l as [|x r]; [congruence |].
  change "|" with (String "|"%char EmptyString) in Heq.
  rewrite join_cons in Heq.
  destruct x as [|a x]; simpl in Heq.
  - destruct r; discriminate.
  - injection Heq as -> _. apply (Hfree (String (ascii_of_nat 31) x)).
    + now left.
    + simpl. now left.
Qed.

(** X4: two arrays of strings with the same serialised value are the same
    array, when they are not empty and no string holds the unit separator:
    the switch of delimiter loses nothing. *)
Theorem array_serialisation_injective {host : Host} (l1 l2 : list string) :
  l1 <> [] -> l2 <> [] ->
  (forall s, In s l1 -> ~ In (ascii_of_nat 31) (chars s)) ->
  (forall s, In s l2 -> ~ In (ascii_of_nat 31) (chars s)) ->
  toValues (Multi (map PString l1)) = toValues (Multi (map PString l2)) ->
  l1 = l2.
Proof.
  intros Hn1 Hn2 H1 H2. rewrite !toValues_strings.
  destruct (joined_cases l1) as [[-> Hp1]| ->],
           (joined_cases l2) as [[-> Hp2]| ->]; intros Heq.
  - now apply (join_injective "|"%char).
  - exfalso. now apply (plain_join_not_escaped l1 _ Hn1 H1 Heq).
  - exfalso. symmetry in Heq.
    now apply (plain_join_not_escaped l2 _ Hn2 H2 Heq).
  - unfold US in Heq. simpl in Heq. injection Heq as Heq.
    now apply (join_injective (ascii_of_nat 31)).
Qed.

Lemma array_serialisation_injective_witness :
  (forall s, In s ["a|b"; "c"] -> ~ In (ascii_of_nat 31) (chars s))
  /\ @toValues Sample.bare (Multi (map PString ["a|b"; "c"]))
     = US ++ "a|b" ++ US ++ "c"
  /\ ["a|b"; "c"] = ["a|b"; "c"]
  /\ @toValues Sample.bare (Multi (map PString ["a"; "b"; "c"]))
     <> @toValues Sample.bare (Multi (map PString ["a|b"; "c"])).
Proof.
  assert (Hfree : forall s, In s ["a|b"; "c"] ->
                            ~ In (ascii_of_nat 31) (chars s)).
  { intros s [<-|[<-|[]]]; vm_compute; intuition discriminate. }
  split; [exact Hfree |].
  split; [reflexivity |].
  split.
  - apply (@array_serialisation_injective Sample.bare ["a|b"; "c"]
             ["a|b"; "c"]); [discriminate | discriminate | exact Hfree
                            | exact Hfree | reflexivity].
  - intros Heq.
    assert (Hsame : ["a"; "b"; "c"] = ["a|b"; "c"]); [| discriminate Hsame].
    apply (@array_serialisation_injective Sample.bare ["a"; "b"; "c"]
             ["a|b"; "c"]); [discriminate | discriminate | | exact Hfree
                            | exact Heq].
    intros s [<-|[<-|[<-|[]]]]; vm_compute; intuition discriminate.
Defined.

(** The hypothesis on the unit separator is needed: a string that holds it
    is read as two. *)
Example unit_separator_inside_a_string :
  @toValues Sample.bare
    (Multi [PString ("a" ++ US ++ "b"); PString "c|d"])
  = @toValues Sample.bare (Multi [PString "a"; PString "b"; PString "c|d"]).
Proof. reflexivity. Qed.

Lemma has_of_getAll_one (name value : string) (search : URLSearchParams.t) :
  URLSearchParams.getAll name search = [value] ->
  URLSearchParams.has name search = true.
Proof.
  intros Hall. destruct (URLSearchParams.has name search) eqn:Hhas; auto.
  apply has_of_getAll in Hhas. congruence.
Qed.

(** The value under a key that is not reserved and is not skipped. *)
Lemma createSearchParams_sent {host : Host} (params : Params)
  (search : URLSearchParams.t) (key : string) (value : ParamValue) :
  NoDup (JsObject.keys params) ->
  createSearchParams params = Ok search ->
  key <> "format" -> key <> "formatversion" -> key <> "errorformat" ->
  JsObject.get key params = Some value ->
  skipped value = false ->
  exists s, serialized value = Ok s
            /\ URLSearchParams.getAll key search = [s].
Proof.
  intros Hnd Hs Hf Hfv Hef Hget Hskip.
  assert (Hres : ~ reserved key) by (unfold reserved; tauto).
  pose proof (createSearchParams_key params search key Hnd Hs Hres) as Hkey.
  rewrite Hget, Hskip in Hkey. exact Hkey.
Qed.

(** X5: an array is never skipped as a value: its key is in the output,
    with the empty string when the array is empty; and a boolean inside an
    array, [false] as well as [true], becomes the empty string at its
    place. *)
Theorem array_values_are_always_sent {host : Host} (params : Params)
  (search : URLSearchParams.t) (key : string) (values : list Primitive) :
  NoDup (JsObject.keys params) ->
  createSearchParams params = Ok search ->
  key <> "format" -> key <> "formatversion" -> key <> "errorformat" ->
  JsObject.get key params = Some (Multi values) ->
  URLSearchParams.has key search = true
  /\ (values = [] -> URLSearchParams.getAll key search = [EmptyString])
  /\ exists strings,
       mapM convert values = Ok strings
       /\ URLSearchParams.getAll key search = [joined strings]
       /\ forall i b, nth_error values i = Some (PBoolean b) ->
                      nth_error strings i = Some EmptyString.
Proof.
  intros Hnd Hs Hf Hfv Hef Hget.
  destruct (createSearchParams_sent params search key (Multi values)
              Hnd Hs Hf Hfv Hef Hget eq_refl) as [s [Hser Hall]].
  unfold serialized in Hser.
  destruct (mapM convert values) as [strings|] eqn:Hmap; [| discriminate].
  unfold Completion.bind in Hser. rewrite toValues_strings in Hser.
  injection Hser as <-.
  split; [exact (has_of_getAll_one key _ search Hall) |].
  split.
  - intros ->. simpl in Hmap. injection Hmap as <-. exact Hall.
  - exists strings. split; [reflexivity |]. split; [exact Hall |].
    intros i b Hi.
    destruct (mapM_nth convert values strings i (PBoolean b) Hmap Hi)
      as [y [Hy Hnth]].
    injection Hy as <-. exact Hnth.
Qed.

Lemma array_values_are_always_sent_witness :
  let params : @Params Sample.bare :=
    [("action", Single (PString "query")); ("prop", Multi []);
     ("flags", Multi [PBoolean true; PBoolean false; PString "x"])] in
  let search : URLSearchParams.t :=
    [("action", "query"); ("prop", EmptyString); ("flags", "||x");
     ("format", "json"); ("formatversion", "2");
     ("errorformat", "plaintext")] in
  createSearchParams params = Ok search
  /\ URLSearchParams.getAll "prop" search = [EmptyString]
  /\ URLSearchParams.has "flags" search = true.
Proof.
  intros params search.
  assert (Hnd : NoDup (JsObject.keys params)).
  { repeat constructor; simpl; intuition discriminate. }
  split; [reflexivity |]. split.
  - apply (@array_values_are_always_sent Sample.bare params search "prop" []
             Hnd eq_refl ltac:(discriminate) ltac:(discriminate)
             ltac:(discriminate) eq_refl).
    reflexivity.
  - apply (@array_values_are_always_sent Sample.bare params search "flags"
             [PBoolean true; PBoolean false; PString "x"]
             Hnd eq_refl ltac:(discriminate) ltac:(discriminate)
             ltac:(discriminate) eq_refl).
Defined.

(** X6: under a key that is not reserved, a string goes out as it is, or
    after the unit separator when it holds a pipe; a number goes out as
    [String] prints it and a date as [toISOString] prints it, when these
    hold no pipe. *)
Theorem scalar_values_sent {host : Host} (params : Params)
  (search : URLSearchParams.t) (key : string) :
  NoDup (JsObject.keys params) ->
  createSearchParams params = Ok search ->
  key <> "format" -> key <> "formatversion" -> key <> "errorformat" ->
  (forall s,
      JsObject.get key params = Some (Single (PString s)) ->
      (~ In "|"%char (chars s) -> URLSearchParams.getAll key search = [s])
      /\ (In "|"%char (chars s) ->
          URLSearchParams.getAll key search = [US ++ s]))
  /\
  (forall n,
      JsObject.get key params = Some (Single (PNumber n)) ->
      ~ In "|"%char (chars (Number_toString n)) ->
      URLSearchParams.getAll key search = [Number_toString n])
  /\
  (forall d,
      JsObject.get key params = Some (Single (PDate d)) ->
      exists iso,
        Date_toISOString d = Ok iso
        /\ (~ In "|"%char (chars iso) ->
            URLSearchParams.getAll key search = [iso])).
Proof.
  intros Hnd Hs Hf Hfv Hef. split; [| split].
  - intros s Hget.
    destruct (createSearchParams_sent params search key _
                Hnd Hs Hf Hfv Hef Hget eq_refl) as [out [Hser Hall]].
    simpl in Hser. injection Hser as <-. split; intros Hp.
    + apply includes_pipe_false in Hp. now rewrite Hp in Hall.
    + apply includes_pipe in Hp. now rewrite Hp in Hall.
  - intros n Hget Hp.
    destruct (createSearchParams_sent params search key _
                Hnd Hs Hf Hfv Hef Hget eq_refl) as [out [Hser Hall]].
    simpl in Hser. injection Hser as <-.
    apply includes_pipe_false in Hp. now rewrite Hp in Hall.
  - intros d Hget.
    destruct (createSearchParams_sent params search key _
                Hnd Hs Hf Hfv Hef Hget eq_refl) as [out [Hser Hall]].
    simpl in Hser.
    destruct (Date_toISOString d) as [iso|]; [| discriminate].
    simpl in Hser. injection Hser as <-.
    exists iso. split; [reflexivity |]. intros Hp.
    apply includes_pipe_false in Hp. now rewrite Hp in Hall.
Qed.

Lemma scalar_values_sent_witness :
  let params : @Params Sample.bare :=
    [("action", Single (PString "query"));
     ("titles", Single (PString "A|B"));
     ("rvlimit", Single (@PNumber Sample.bare (-5)%Z));
     ("rvstart", Single (@PDate Sample.bare Sample.Epoch))] in
  let search : URLSearchParams.t :=
    [("action", "query"); ("titles", US ++ "A|B"); ("rvlimit", "-5");
     ("rvstart", "1970-01-01T00:00:00.000Z");
     ("format", "json"); ("formatversion", "2");
     ("errorformat", "plaintext")] in
  createSearchParams params = Ok search
  /\ URLSearchParams.getAll "action" search = ["query"]
  /\ URLSearchParams.getAll "titles" search = [US ++ "A|B"]
  /\ URLSearchParams.getAll "rvlimit" search = ["-5"]
  /\ exists iso,
       @Date_toISOString Sample.bare Sample.Epoch = Ok iso
       /\ URLSearchParams.getAll "rvstart" search = [iso].
Proof.
  intros params search.
  assert (Hnd : NoDup (JsObject.keys params)).
  { repeat constructor; simpl; intuition discriminate. }
  split; [reflexivity |].
  split; [| split; [| split]].
  - apply (proj1 (@scalar_values_sent Sample.bare params search "action"
                    Hnd eq_refl ltac:(discriminate) ltac:(discriminate)
                    ltac:(discriminate)) "query" eq_refl).
    vm_compute. intuition discriminate.
  - apply (proj1 (@scalar_values_sent Sample.bare params search "titles"
                    Hnd eq_refl ltac:(discriminate) ltac:(discriminate)
                    ltac:(discriminate)) "A|B" eq_refl).
    vm_compute. tauto.
  - apply (proj1 (proj2 (@scalar_values_sent Sample.bare params search
                           "rvlimit" Hnd eq_refl ltac:(discriminate)
                           ltac:(discriminate) ltac:(discriminate)))
             (-5)%Z eq_refl).
    vm_compute. intuition discriminate.
  - destruct (proj2 (proj2 (@scalar_values_sent Sample.bare params search
                              "rvstart" Hnd eq_refl ltac:(discriminate)
                              ltac:(discriminate) ltac:(discriminate)))
                Sample.Epoch eq_refl) as [iso [Hiso Hall]].
    exists iso. split; [exact Hiso |]. apply Hall.
    vm_compute in Hiso. injection Hiso as <-.
    vm_compute. intuition discriminate.
Defined.

(* ================================================================= *)
(** ** The methods *)



(** X8: once the body has arrived, a call succeeds exactly when the field
    [errors] is missing or [null]; an empty array of errors fails it like
    any other.  Whether it succeeds or not, the console has grown by the
    warning lines and by nothing else: by nothing when [warnings] is
    missing or empty. *)
Theorem call_succeeds_iff_no_errors {host : Host} :
  (forall R (body : MediaWikiResponseBody R) (this : HttpClient.t R)
          params st search result w,
      createSearchParams params = Ok search ->
      transport (HttpClient.client this) (options (HttpClient.client this))
        (HttpClient.get_request this search) (world st) = (Ok result, w) ->
      (fst (HttpClient.get this params st) = Ok result
       <-> errors result = None)
      /\ (errors result = Some (Many []) ->
          fst (HttpClient.get this params st) = Throw (Error EmptyString))
      /\ console (snd (HttpClient.get this params st))
         = (console st ++ lines_of (warnings result))%list
      /\ (warnings result = None \/ warnings result = Some [] ->
          console (snd (HttpClient.get this params st)) = console st))
  /\
  (forall R (body : MediaWikiResponseBody R) (this : HttpClient.t R)
          params st search result w,
      createSearchParams params = Ok search ->
      transport (HttpClient.client this) (options (HttpClient.client this))
        (HttpClient.post_request this search) (world st) = (Ok result, w) ->
      (fst (HttpClient.post this params st) = Ok result
       <-> errors result = None)
      /\ (errors result = Some (Many []) ->
          fst (HttpClient.post this params st) = Throw (Error EmptyString))
      /\ console (snd (HttpClient.post this params st))
         = (console st ++ lines_of (warnings result))%list
      /\ (warnings result = None \/ warnings result = Some [] ->
          console (snd (HttpClient.post this params st)) = console st))
  /\
  (forall T (this : HttpClient.t (QueryResponseBody T))
          params st search result w,
      createSearchParams (HttpClient.with_action_query params) = Ok search ->
      transport (HttpClient.client this) (options (HttpClient.client this))
        (HttpClient.get_request this search) (world st) = (Ok result, w) ->
      (fst (HttpClient.query this params st) = Ok (query result)
       <-> errors result = None)
      /\ console (snd (HttpClient.query this params st))
         = (console st ++ lines_of (warnings result))%list).
Proof.
  assert (Hquiet : forall (ws : option (list MediaWikiError)) (l : list string),
             ws = None \/ ws = Some [] -> (l ++ lines_of ws)%list = l).
  { intros ws l [->| ->]; simpl; apply app_nil_r. }
  split; [| split].
  - intros R body this params st search result w Hs Ht.
    rewrite (get_run this params st search _ w Hs Ht).
    destruct (errors result) as [errs|] eqn:He; simpl.
    + repeat split; try discriminate.
      * intros Hmany. injection Hmany as ->. reflexivity.
      * now apply Hquiet.
    + repeat split; try discriminate. now apply Hquiet.
  - intros R body this params st search result w Hs Ht.
    rewrite (post_run this params st search _ w Hs Ht).
    destruct (errors result) as [errs|] eqn:He; simpl.
    + repeat split; try discriminate.
      * intros Hmany. injection Hmany as ->. reflexivity.
      * now apply Hquiet.
    + repeat split; try discriminate. now apply Hquiet.
  - intros T this params st search result w Hs Ht.
    rewrite query_run, (get_run this _ st search _ w Hs Ht).
    destruct (errors result) as [errs|] eqn:He; simpl;
      repeat split; discriminate.
Qed.

Lemma call_succeeds_iff_no_errors_witness :
  let clean := Sample.answer None None in
  let empty := Sample.answer (Some []) (Some (Many [])) in
  (fst (HttpClient.get (Sample.wiki (Ok clean)) Sample.ignored Sample.start)
   = Ok clean
   /\ console (snd (HttpClient.get (Sample.wiki (Ok clean)) Sample.ignored
                      Sample.start)) = [])
  /\ (fst (HttpClient.post (Sample.wiki (Ok empty)) Sample.ignored
             Sample.start) = Throw (Error EmptyString)
      /\ console (snd (HttpClient.post (Sample.wiki (Ok empty)) Sample.ignored
                         Sample.start)) = [])
  /\ fst (HttpClient.query (Sample.wiki (Ok clean)) Sample.ignored
            Sample.start) = Ok 7.
Proof.
  intros clean empty.
  destruct (@call_succeeds_iff_no_errors Sample.bare)
    as [Hget [Hpost Hquery]].
  split; [| split].
  - destruct (Hget _ (QueryResponseBody_body nat) (Sample.wiki (Ok clean))
                Sample.ignored Sample.start
                [("action", "ignoredOnPurpose"); ("list", "foo");
                 ("format", "json"); ("formatversion", "2");
                 ("errorformat", "plaintext")]
                clean 1 eq_refl eq_refl) as [Hiff [_ [_ Hquiet]]].
    split; [apply Hiff; reflexivity | apply Hquiet; left; reflexivity].
  - destruct (Hpost _ (QueryResponseBody_body nat) (Sample.wiki (Ok empty))
                Sample.ignored Sample.start
                [("action", "ignoredOnPurpose"); ("list", "foo");
                 ("format", "json"); ("formatversion", "2");
                 ("errorformat", "plaintext")]
                empty 1 eq_refl eq_refl) as [_ [Hempty [_ Hquiet]]].
    split; [apply Hempty; reflexivity | apply Hquiet; right; reflexivity].
  - destruct (Hquery nat (Sample.wiki (Ok clean)) Sample.ignored Sample.start
                [("action", "query"); ("list", "foo");
                 ("format", "json"); ("formatversion", "2");
                 ("errorformat", "plaintext")]
                clean 1 eq_refl eq_refl) as [Hiff _].
    apply Hiff. reflexivity.
Defined.





(* ================================================================= *)
(** ** The user agent *)

Lemma substring_all (s : string) : substring 0 (String.length s) s = s.
Proof. induction s as [|c s IH]; simpl; congruence. Qed.

Lemma prefix_caret (s : string) :
  String.prefix "^" s = true <-> exists s', s = String "^"%char s'.
Proof.
  destruct s as [|c s']; cbn [String.prefix].
  - split; [discriminate | intros [? ?]; discriminate].
  - destruct (ascii_dec "^" c) as [<-|Hne].
    + split; [eauto | now destruct s'].
    + split; [discriminate | intros [? Heq]; congruence].
Qed.

(** [replace('^', '')] takes a leading caret away and nothing else. *)
Lemma replace_leading_caret (r : string) :
  replace (String "^"%char r) "^" EmptyString = r.
Proof.
  cbn [replace].
  replace (String.prefix "^" (String "^"%char r)) with true
    by (symmetry; apply prefix_caret; eauto).
  simpl. rewrite Nat.sub_0_r. apply substring_all.
Qed.

(** [replace('^', '')] leaves a string without caret as it is. *)
Lemma replace_no_caret (s : string) :
  ~ In "^"%char (chars s) -> replace s "^" EmptyString = s.
Proof.
  induction s as [|c s IH]; intros Hfree; [reflexivity |].
  cbn [replace].
  destruct (String.prefix "^" (String c s)) eqn:Hp.
  - apply prefix_caret in Hp as [s' Heq]. injection Heq as -> ->.
    exfalso. apply Hfree. simpl. now left.
  - f_equal. apply IH. intros Hin. apply Hfree. simpl. now right.
Qed.

(** X10: with a metadata file that parses to an object whose
    [dependencies.got] is a string, the user agent is [HuijiMWClient/],
    the version, [ Got/] and that string with its leading caret removed (a
    string without caret is kept whole; later carets stay).  A missing
    [version] is printed as [undefined]. *)
Theorem user_agent_of_metadata {host : Host} (content shown range : string)
  (props deps : list (string * Json Number)) :
  fs_existsSync (getRelativePath "../package.json" import_meta_url) = true ->
  fs_readFileSync (getRelativePath "../package.json" import_meta_url)
  = Ok content ->
  JSON_parse content = Ok (JObject props) ->
  JsObject.get "version" props = Some (JString shown)
  \/ (JsObject.get "version" props = None /\ shown = "undefined") ->
  JsObject.get "dependencies" props = Some (JObject deps) ->
  JsObject.get "got" deps = Some (JString range) ->
  (forall r,
      range = String "^"%char r ->
      HttpClient.getUserAgent = Ok ("HuijiMWClient/" ++ shown ++ " Got/" ++ r))
  /\
  (~ In "^"%char (chars range) ->
   HttpClient.getUserAgent
   = Ok ("HuijiMWClient/" ++ shown ++ " Got/" ++ range)).
Proof.
  intros Hyes Hread Hparse Hversion Hdeps Hgot.
  assert (Hagent : HttpClient.getUserAgent
                   = Ok ("HuijiMWClient/" ++ shown ++ " Got/"
                         ++ replace range "^" EmptyString)).
  { unfold HttpClient.getUserAgent. rewrite Hyes, Hread.
    cbn [Completion.bind]. rewrite Hparse.
    cbn [Completion.bind HttpClient.property]. rewrite Hdeps.
    cbn [Completion.bind HttpClient.property]. rewrite Hgot.
    cbn [Completion.bind HttpClient.call_replace].
    destruct Hversion as [-> | [-> ->]]; reflexivity. }
  split.
  - intros r ->. now rewrite replace_leading_caret in Hagent.
  - intros Hfree. now rewrite (replace_no_caret range Hfree) in Hagent.
Qed.

Lemma user_agent_of_metadata_witness :
  @HttpClient.getUserAgent Sample.packaged
  = Ok "HuijiMWClient/1.0.0 Got/12.5.3".
Proof.
  apply (proj1 (@user_agent_of_metadata Sample.packaged Sample.package_json
                  "1.0.0" "^12.5.3"
                  [("version", JString "1.0.0");
                   ("dependencies", JObject [("got", JString "^12.5.3")])]
                  [("got", JString "^12.5.3")]
                  eq_refl eq_refl eq_refl (or_introl eq_refl) eq_refl eq_refl)
           "12.5.3" eq_refl).
Defined.

(** X11: a metadata file that parses, but to [null], or to an object
    without [dependencies], or with a [dependencies] object whose [got] is
    not a string, makes [getUserAgent] throw a [TypeError], and the
    constructor with it. *)
Theorem metadata_without_got_is_a_type_error {host : Host} {R}
  (got : Got R) (endpoint content : string) (parsed : Json Number) :
  fs_existsSync (getRelativePath "../package.json" import_meta_url) = true ->
  fs_readFileSync (getRelativePath "../package.json" import_meta_url)
  = Ok content ->
  JSON_parse content = Ok parsed ->
  parsed = JNull
  \/ (exists props,
         parsed = JObject props
         /\ JsObject.get "dependencies" props = None)
  \/ (exists props deps,
         parsed = JObject props
         /\ JsObject.get "dependencies" props = Some (JObject deps)
         /\ forall range, JsObject.get "got" deps <> Some (JString range)) ->
  HttpClient.getUserAgent = Throw TypeError
  /\ HttpClient.constructor got endpoint = Throw TypeError.
Proof.
  intros Hyes Hread Hparse Hshape.
  assert (Hagent : HttpClient.getUserAgent = Throw TypeError).
  { unfold HttpClient.getUserAgent. rewrite Hyes, Hread.
    cbn [Completion.bind]. rewrite Hparse.
    destruct Hshape as [->|[[props [-> Hdeps]]|[props [deps [-> [Hdeps Hgot]]]]]].
    - reflexivity.
    - cbn [Completion.bind HttpClient.property]. rewrite Hdeps. reflexivity.
    - cbn [Completion.bind HttpClient.property]. rewrite Hdeps.
      cbn [Completion.bind HttpClient.property].
      destruct (JsObject.get "got" deps) as [[| | |range| |]|];
        try reflexivity.
      now elim (Hgot range). }
  split; [exact Hagent |].
  unfold HttpClient.constructor. now rewrite Hagent.
Qed.

Lemma metadata_without_got_is_a_type_error_witness :
  @HttpClient.getUserAgent Sample.versioned = Throw TypeError
  /\ @HttpClient.constructor Sample.versioned nat
       {| options := {| cookieJar := None; headers := [] |};
          transport := fun _ _ (w : @World Sample.versioned) => (Ok 0, w) |}
       "https://wiki.example/api.php" = Throw TypeError.
Proof.
  apply (@metadata_without_got_is_a_type_error Sample.versioned nat _
           "https://wiki.example/api.php" Sample.versioned_json
           (JObject [("version", JString "1.0.0")]) eq_refl eq_refl eq_refl).
  right. left. exists [("version", JString "1.0.0")]. split; reflexivity.
Defined.

(* ================================================================= *)
(** ** get and post side by side; invalid dates *)

(** X12: [post] ends as [get] does: when the transport answers the form
    request as it answers the query-string request, the two calls end with
    the same value or exception and leave the same console. *)
Theorem post_ends_as_get {host : Host} {R} {body : MediaWikiResponseBody R}
  (this : HttpClient.t R) (params : Params) (st : State) :
  (forall search,
      createSearchParams params = Ok search ->
      fst (transport (HttpClient.client this)
             (options (HttpClient.client this))
             (HttpClient.post_request this search) (world st))
      = fst (transport (HttpClient.client this)
               (options (HttpClient.client this))
               (HttpClient.get_request this search) (world st))) ->
  fst (HttpClient.post this params st) = fst (HttpClient.get this params st)
  /\ console (snd (HttpClient.post this params st))
     = console (snd (HttpClient.get this params st)).
Proof.
  intros Hsame.
  destruct (createSearchParams params) as [search|e] eqn:Hs.
  - specialize (Hsame search eq_refl).
    destruct (transport (HttpClient.client this)
                (options (HttpClient.client this))
                (HttpClient.get_request this search) (world st))
      as [answer w] eqn:Hget.
    destruct (transport (HttpClient.client this)
                (options (HttpClient.client this))
                (HttpClient.post_request this search) (world st))
      as [answer' w'] eqn:Hpost.
    simpl in Hsame. subst answer'.
    rewrite (get_run this params st search answer w Hs Hget).
    rewrite (post_run this params st search answer w' Hs Hpost).
    destruct answer; split; reflexivity.
  - rewrite (get_throws_early this params st e Hs).
    rewrite (post_throws_early this params st e Hs).
    split; reflexivity.
Qed.

Lemma post_ends_as_get_witness :
  let this :=
    Sample.wiki (Ok (Sample.answer (Some [Sample.deprecated])
                       (Some (One Sample.badtoken)))) in
  fst (HttpClient.post this Sample.ignored Sample.start)
  = fst (HttpClient.get this Sample.ignored Sample.start)
  /\ console (snd (HttpClient.post this Sample.ignored Sample.start))
     = console (snd (HttpClient.get this Sample.ignored Sample.start)).
Proof.
  intros this.
  apply (@post_ends_as_get Sample.bare _ (QueryResponseBody_body nat) this
           Sample.ignored Sample.start).
  intros search _. reflexivity.
Defined.

Lemma mapM_stops {A B} (f : A -> Result B) (before after : list A) (x : A)
  (ys : list B) (e : Exn) :
  mapM f before = Ok ys -> f x = Throw e ->
  mapM f (before ++ x :: after)%list = Throw e.
Proof.
  revert ys. induction before as [|b before IH]; simpl; intros ys Hb Hx.
  - now rewrite Hx.
  - destruct (f b); simpl in *; [| discriminate].
    destruct (mapM f before) as [ys'|]; simpl in *; [| discriminate].
    now rewrite (IH ys' eq_refl Hx).
Qed.

(** X13: a date on which [toISOString] throws, met as a value or inside
    an array after properties and elements that convert, ends
    [createSearchParams] with that exception; [get] and [post] then end
    with it too, before any request and with the state untouched. *)
Theorem invalid_date_aborts_before_the_request {host : Host} {R}
  {body : MediaWikiResponseBody R} (this : HttpClient.t R)
  (before after : Params) (key : string) (value : ParamValue) (d : Date)
  (e : Exn) (st : State) :
  (exists search, createSearchParams before = Ok search) ->
  Date_toISOString d = Throw e ->
  value = Single (PDate d)
  \/ (exists pre post strings,
         value = Multi (pre ++ PDate d :: post)%list
         /\ mapM convert pre = Ok strings) ->
  createSearchParams (before ++ (key, value) :: after)%list = Throw e
  /\ HttpClient.get this (before ++ (key, value) :: after)%list st
     = (Throw e, st)
  /\ HttpClient.post this (before ++ (key, value) :: after)%list st
     = (Throw e, st).
Proof.
  intros [search Hbefore] Hdate Hvalue.
  assert (Hthrow : createSearchParams (before ++ (key, value) :: after)%list
                   = Throw e).
  { destruct (createSearchParams_inv before search Hbefore)
      as [found [Hloop _]].
    unfold createSearchParams. rewrite foldM_app, Hloop.
    cbn [Completion.bind foldM].
    assert (Hvisit : visit found (key, value) = Throw e).
    { destruct Hvalue as [->|[pre [post [strings [-> Hpre]]]]].
      - simpl. now rewrite Hdate.
      - unfold visit, skipped, serialized.
        rewrite (mapM_stops convert pre post (PDate d) strings e Hpre Hdate).
        reflexivity. }
    now rewrite Hvisit. }
  split; [exact Hthrow |].
  split; [now apply get_throws_early | now apply post_throws_early].
Qed.

Lemma invalid_date_aborts_before_the_request_witness :
  let this := Sample.wiki (Ok (Sample.answer None None)) in
  HttpClient.get this
    [("action", Single (PString "query"));
     ("rvstart", Multi [PString "x";
                        @PDate Sample.bare Sample.InvalidDate]);
     ("list", Single (PString "foo"))] Sample.start
  = (Throw RangeError, Sample.start)
  /\ HttpClient.post this
       [("action", Single (PString "query"));
        ("rvend", Single (@PDate Sample.bare Sample.InvalidDate))]
       Sample.start
     = (Throw RangeError, Sample.start).
Proof.
  intros this. split.
  - apply (@invalid_date_aborts_before_the_request Sample.bare _
             (QueryResponseBody_body nat) this
             [("action", Single (PString "query"))]
             [("list", Single (PString "foo"))] "rvstart"
             (Multi [PString "x"; @PDate Sample.bare Sample.InvalidDate])
             Sample.InvalidDate RangeError Sample.start).
    + eexists. reflexivity.
    + reflexivity.
    + right. exists [PString "x"], [], ["x"]. split; reflexivity.
  - apply (@invalid_date_aborts_before_the_request Sample.bare _
             (QueryResponseBody_body nat) this
             [("action", Single (PString "query"))] [] "rvend"
             (Single (@PDate Sample.bare Sample.InvalidDate))
             Sample.InvalidDate RangeError Sample.start).
    + eexists. reflexivity.
    + reflexivity.
    + left. reflexivity.
Defined.
